(** * zod-http: the validated request executor of [src/core.ts]

    A shallow embedding of [serializeBody], [zFetch], [zFetch.stream] and
    [zFetch.upload] together with the error class of [error.ts].

    The JavaScript platform (fetch, AbortController, Headers, URL, JSON,
    TextDecoder, XMLHttpRequest) is not part of the repository.  It enters
    the development in two ways:

    - pure primitives ([JSON.parse], [JSON.stringify], [new URL],
      [TextDecoder.decode]) are fields of the class [Platform];
    - what the outside world does during one call (the server answers, the
      transport fails, nothing arrives, the caller aborts its signal) is a
      _world_ value handed to the executor, so that every run is a total,
      computable function of the options and of the world.

    Effects the claims talk about (network calls, timers, suspensions,
    schema runs, callback invocations) are recorded in a trace of
    [Event]s, in program order. *)

From Stdlib Require Import ZArith String Ascii List Bool Lia.
From Stdlib Require Import DecimalString.
From stdpp Require Import base option gmap strings.
Import ListNotations.

Local Open Scope string_scope.
Local Open Scope list_scope.
Local Open Scope Z_scope.

#[local] Set Warnings "-register-all".

(** ** Values *)

(** The JSON-visible shape of a JavaScript value ([unknown] in the source).
    The executor never inspects such a value; it only moves it between the
    parser, the schema and the caller. *)
Inductive Json : Type :=
| JNull
| JBool (b : bool)
| JNum (n : Z)
| JStr (s : string)
| JArr (items : list Json)
| JObj (fields : list (string * Json)).

(** [Headers]: a map from lower-cased header names to values.  The
    platform class normalises names, so [has] and [set] are
    case-insensitive. *)
Abbreviation Headers := (gmap string string).

Definition ascii_lower (c : ascii) : ascii :=
  let n := nat_of_ascii c in
  if ((65 <=? n) && (n <=? 90))%nat then ascii_of_nat (n + 32) else c.

Fixpoint lower (s : string) : string :=
  match s with
  | EmptyString => EmptyString
  | String c rest => String (ascii_lower c) (lower rest)
  end.

Definition Headers_has (name : string) (h : Headers) : bool :=
  match h !! lower name with Some _ => true | None => false end.

Definition Headers_set (name value : string) (h : Headers) : Headers :=
  <[lower name := value]> h.

(** [String.prototype.includes]. *)
Fixpoint includes (needle hay : string) : bool :=
  String.prefix needle hay ||
  match hay with
  | EmptyString => false
  | String _ rest => includes needle rest
  end.

(** ** Request bodies: [BodyInit | object | null | undefined] *)

Inductive BodyValue : Type :=
| BodyUndefined
| BodyNull
| BodyString (s : string)                        (* typeof body === "string" *)
| BodyBlob (bytes : list Byte.byte)              (* instanceof Blob *)
| BodyFormData (fields : list (string * string)) (* instanceof FormData *)
| BodyURLSearchParams (ps : list (string * string))
| BodyReadableStream (chunks : list (list Byte.byte))
| BodyObject (v : Json).                         (* any other object *)

(** The test of lines 28-32: an object that is none of the four
    already-encoded classes. *)
Definition is_structured (b : BodyValue) : bool :=
  match b with
  | BodyObject _ => true
  | _ => false
  end.

Definition body_present (b : BodyValue) : bool :=
  match b with
  | BodyUndefined | BodyNull => false
  | _ => true
  end.

(** The four kinds the source tests with [instanceof]. *)
Definition already_encoded (b : BodyValue) : bool :=
  match b with
  | BodyBlob _ | BodyFormData _ | BodyURLSearchParams _ | BodyReadableStream _ => true
  | _ => false
  end.

Section SerializeBody.

Variable JSON_stringify : Json -> string.

(** [serializeBody(body, headers)], lines 25-42.  The header collection
    is mutated in place in the source; here the updated collection is
    returned next to the result ([None] is [null]). *)
Definition serializeBody (body : BodyValue) (headers : Headers)
  : Headers * option BodyValue :=
  match body with
  | BodyUndefined | BodyNull => (headers, None)
  | BodyObject v =>
      let headers' :=
        if negb (Headers_has "Content-Type" headers)
        then Headers_set "Content-Type" "application/json" headers
        else headers in
      (headers', Some (BodyString (JSON_stringify v)))
  | other => (headers, Some other)
  end.

End SerializeBody.

(** ** Responses, thrown values and [ZodFetchError] *)

(** A value a promise of the platform can reject with, other than the
    library's own error class: an [Error] instance (with the two properties
    the catch block inspects and the [instanceof TypeError] test) or any
    other value. *)
Inductive RawThrown : Type :=
| RawError (is_TypeError : bool) (name message : string)
| RawValue (v : Json).

(** What [controller.abort()] makes a pending fetch or body read reject
    with. *)
Definition AbortError : RawThrown :=
  RawError false "AbortError" "This operation was aborted".

(** What [JSON.parse] and [response.json()] throw on a text that is not
    JSON: an [Error] named SyntaxError that is not a TypeError; its message
    is the platform's and depends on the text. *)
Definition SyntaxError (message : string) : RawThrown :=
  RawError false "SyntaxError" message.

(** How the body stream of a response ends. *)
Inductive ReadEnd : Type :=
| ReadDone                      (* { done: true } *)
| ReadFails (e : RawThrown)     (* reader.read() rejects *)
| ReadStalls.                   (* no further chunk ever arrives *)

Record BodyStream : Type := {
  bs_chunks : list (list Byte.byte);
  bs_end : ReadEnd
}.

(** The [Response] fields the source reads. *)
Record Response : Type := {
  r_status : Z;
  r_statusText : string;
  r_content_type : option string;        (* headers.get("content-type") *)
  r_text : RawThrown + string;           (* what response.text() settles to *)
  r_body : option BodyStream             (* response.body, None is null *)
}.

(** [response.ok]: the status is in the range 200 to 299 (Fetch standard). *)
Definition r_ok (r : Response) : bool :=
  (200 <=? r_status r) && (r_status r <=? 299).

(** [ZodFetchErrorCause] of error.ts. *)
Inductive ZodFetchErrorCause : Type :=
| network | timeout | validation | abort | unknown.

Definition Issue := string.

(** The [data] field is [unknown]: the executor stores either a parsed
    payload or the original thrown value in it. *)
Inductive ErrorData : Type :=
| DataJson (j : Json)
| DataThrown (t : RawThrown).

(** [class ZodFetchError extends Error] of error.ts; [name] is the
    constant "ZodFetchError". *)
Record ZodFetchError : Type := {
  message : string;
  status : option Z;
  statusText : option string;
  url : option string;
  response : option Response;
  issues : option (list Issue);
  data : option ErrorData;
  cause : ZodFetchErrorCause
}.

(** Everything the [catch] block of the attempt loop can receive. *)
Inductive Thrown : Type :=
| TRaw (e : RawThrown)
| TZod (e : ZodFetchError).

(** [schema.safeParseAsync(data)]: the schema engine as an opaque
    capability. *)
Inductive SafeParse : Type :=
| Success (value : Json)
| Failure (issues : list Issue).

(** ** Traces and the effect monad *)

(** The signal a request is issued with. *)
Inductive ReqSignal : Type :=
| SigAbsent          (* no signal property *)
| SigController      (* the signal of the attempt's own AbortController *)
| SigExternal.       (* the caller's signal *)

Record Request : Type := {
  req_url : string;
  req_method : option string;
  req_headers : Headers;
  req_body : option BodyValue;
  req_signal : ReqSignal
}.

Inductive Event : Type :=
| EvNewController                 (* new AbortController() *)
| EvSetTimeout (ms : Z)           (* setTimeout(() => controller.abort(), ms) *)
| EvAddAbortListener              (* init.signal.addEventListener('abort', ...) *)
| EvClearTimeout                  (* clearTimeout(timeoutId) *)
| EvFetch (req : Request)         (* fetch(url, init) *)
| EvValidate (d : Json)           (* schema.safeParseAsync(d) *)
| EvWait (ms : Z)                 (* await wait(ms) *)
| EvOnChunk (v : Json)            (* onChunk(v) *)
| EvXhrSend (target : string).    (* xhr.open("POST", target); xhr.send(formData) *)

(** How an asynchronous computation ends: it resolves, it rejects, or its
    promise never settles. *)
Inductive Outcome (A : Type) : Type :=
| Returned (a : A)
| Raised (e : Thrown)
| Pending.

Arguments Returned {A} a.
Arguments Raised {A} e.
Arguments Pending {A}.

Definition Run (A : Type) : Type := (list Event * Outcome A)%type.

Definition ret {A} (a : A) : Run A := ([], Returned a).
Definition throw {A} (e : Thrown) : Run A := ([], Raised e).
Definition emit (ev : Event) : Run unit := ([ev], Returned tt).
Definition settle {A} (o : Outcome A) : Run A := ([], o).

Definition bind {A B} (m : Run A) (k : A -> Run B) : Run B :=
  match m with
  | (t, Returned a) => let '(t', o) := k a in (t ++ t', o)
  | (t, Raised e) => (t, Raised e)
  | (t, Pending) => (t, Pending)
  end.

(** [try { m } catch (error) { h error }]. *)
Definition try_catch {A} (m : Run A) (h : Thrown -> Run A) : Run A :=
  match m with
  | (t, Raised e) => let '(t', o) := h e in (t ++ t', o)
  | other => other
  end.

(** [wait(ms)], lines 21-23.  The event records the argument [ms] handed to
    [setTimeout]; the time the timer then runs is [timer_delay ms]. *)
Definition wait (ms : Z) : Run unit := emit (EvWait ms).

(** The largest delay a timer takes: 2^31 - 1 ms. *)
Definition TIMEOUT_MAX : Z := 2147483647.

(** The delay [setTimeout(f, ms)] arms its timer with, for an integer [ms],
    under Node, where the test suite runs: a delay below 1 or above
    [TIMEOUT_MAX] is replaced by 1.  (Browsers treat those delays
    differently -- negative ones become 0, larger ones wrap around to 32
    bits -- and agree with Node on 1..TIMEOUT_MAX.) *)
Definition timer_delay (ms : Z) : Z :=
  if (ms <? 1) || (TIMEOUT_MAX <? ms) then 1 else ms.

Declare Scope run_scope.
Delimit Scope run_scope with run.
Notation "'let*' x ':=' c 'in' k" := (bind c (fun x => k))
  (at level 10, x name, c at level 100, k at level 200) : run_scope.
Notation "c ';;;' k" := (bind c (fun _ => k))
  (at level 100, k at level 200, right associativity) : run_scope.
Local Open Scope run_scope.

Definition trace {A} (r : Run A) : list Event := fst r.
Definition outcome {A} (r : Run A) : Outcome A := snd r.

(** Projections of a trace. *)
Definition fetches (t : list Event) : list Request :=
  omap (fun ev => match ev with EvFetch r => Some r | _ => None end) t.

Definition waits (t : list Event) : list Z :=
  omap (fun ev => match ev with EvWait ms => Some ms | _ => None end) t.

(** The time, in ms, for which each [wait] of a trace suspends the run. *)
Definition suspensions (t : list Event) : list Z :=
  map timer_delay (waits t).

Definition validations (t : list Event) : list Json :=
  omap (fun ev => match ev with EvValidate d => Some d | _ => None end) t.

Definition callbacks (t : list Event) : list Json :=
  omap (fun ev => match ev with EvOnChunk v => Some v | _ => None end) t.

Definition timers (t : list Event) : list Z :=
  omap (fun ev => match ev with EvSetTimeout ms => Some ms | _ => None end) t.

Definition controllers (t : list Event) : list unit :=
  omap (fun ev => match ev with EvNewController => Some tt | _ => None end) t.

(** Network calls and suspensions, in program order. *)
Inductive Step : Type :=
| Call
| Sleep (ms : Z).

Definition schedule (t : list Event) : list Step :=
  omap (fun ev => match ev with
                  | EvFetch _ => Some Call
                  | EvWait ms => Some (Sleep ms)
                  | _ => None
                  end) t.

(** ** Options *)

(** [string | URL]; a [URL] object is represented by what its
    [toString()] gives. *)
Inductive UrlInput : Type :=
| UrlString (s : string)
| UrlObject (href : string).

Definition url_toString (u : UrlInput) : string :=
  match u with
  | UrlString s => s
  | UrlObject href => href
  end.

(** A search-parameter value.  A number is an integer here; JavaScript
    holds it exactly when it is a safe integer, see [safe_param]. *)
Inductive ParamValue : Type :=
| PString (s : string)
| PNumber (n : Z)
| PBool (b : bool).

(** [Number.isSafeInteger] on the numbers among the values: integers of
    magnitude at most 2^53 - 1, which [String] prints with all their
    digits.  (From 10^21 on [String] switches to exponent notation.) *)
Definition safe_param (v : ParamValue) : bool :=
  match v with
  | PNumber n => (- 9007199254740991 <=? n) && (n <=? 9007199254740991)
  | _ => true
  end.

Definition safe_params (entries : list (string * option ParamValue)) : bool :=
  forallb (fun kv => match snd kv with Some v => safe_param v | None => true end)
          entries.

Definition String_of_Z (n : Z) : string := NilZero.string_of_int (Z.to_int n).

(** [String(value)] on a search-parameter value; faithful for the numbers
    that are safe integers. *)
Definition String_of_param (v : ParamValue) : string :=
  match v with
  | PString s => s
  | PNumber n => String_of_Z n
  | PBool true => "true"
  | PBool false => "false"
  end.

Inductive Backoff : Type := linear | exponential.

(** [interface ZodFetchRetryOptions]; numbers are integers here. *)
Record ZodFetchRetryOptions : Type := {
  attempts : Z;
  delay : option Z;
  backoff : option Backoff
}.

(** [retry?: number | ZodFetchRetryOptions]. *)
Inductive RetryOption : Type :=
| RetryNumber (n : Z)
| RetryObject (o : ZodFetchRetryOptions).

(** The caller's [signal] property, with the state of the signal at the
    time of the call. *)
Inductive SignalState : Type :=
| NoSignal
| SignalLive
| SignalAborted.

(** [interface ZodFetchOptions<T>]; the stream variant takes the same
    fields plus the [onChunk] callback, whose invocations are [EvOnChunk]
    events. *)
Record ZodFetchOptions : Type := {
  opt_url : UrlInput;
  opt_schema : Json -> SafeParse;
  opt_searchParams : option (list (string * option ParamValue));
  opt_body : BodyValue;
  opt_timeout : option Z;
  opt_retry : option RetryOption;
  opt_headers : Headers;
  opt_method : option string;
  opt_signal : SignalState
}.

(** The same options with another [searchParams] property. *)
Definition set_searchParams (sp : option (list (string * option ParamValue)))
    (o : ZodFetchOptions) : ZodFetchOptions :=
  {| opt_url := opt_url o; opt_schema := opt_schema o;
     opt_searchParams := sp; opt_body := opt_body o;
     opt_timeout := opt_timeout o; opt_retry := opt_retry o;
     opt_headers := opt_headers o; opt_method := opt_method o;
     opt_signal := opt_signal o |}.

Definition DEFAULT_TIMEOUT : Z := 10000.

(** Lines 70-73. *)
Definition normalize_retry (retry : option RetryOption) : ZodFetchRetryOptions :=
  match retry with
  | Some (RetryNumber n) =>
      {| attempts := n; delay := Some 1000; backoff := Some linear |}
  | Some (RetryObject o) => o
  | None => {| attempts := 0; delay := Some 0; backoff := Some linear |}
  end.

(** ** The world *)

(** What the network does with one call that nobody cancels. *)
Inductive Settle : Type :=
| Responds (r : Response)
| Rejects (e : RawThrown)
| NoAnswer.

(** What happens around one call: whether the caller aborts its signal
    while the call is pending, what the network does, and whether the
    caller aborts its signal after the response has arrived but before the
    attempt is over. *)
Record AttemptWorld : Type := {
  w_caller_aborts_in_flight : bool;
  w_settle : Settle;
  w_caller_aborts_late : bool
}.

(** The platform's [fetch]: a call issued with an aborted signal, or whose
    signal becomes aborted while the call is pending, rejects with an
    [AbortError]; otherwise the network decides. *)
Definition platform_fetch (aborted_at_call aborted_while_pending : bool)
    (s : Settle) : Outcome Response :=
  if aborted_at_call || aborted_while_pending then Raised (TRaw AbortError)
  else match s with
       | Responds r => Returned r
       | Rejects e => Raised (TRaw e)
       | NoAnswer => Pending
       end.

(** Whether the caller's signal becomes aborted while the call is pending:
    only a signal that is present and not yet aborted can. *)
Definition aborts_while_pending (sig : SignalState) (w : AttemptWorld) : bool :=
  match sig with
  | SignalLive => w_caller_aborts_in_flight w
  | NoSignal | SignalAborted => false
  end.

(** A listener added with [addEventListener('abort', f)] runs when the
    signal becomes aborted.  On a signal that is already aborted the event
    has been dispatched before, so the listener never runs. *)
Definition listener_fires (sig : SignalState) (w : AttemptWorld) : bool :=
  aborts_while_pending sig w.

Definition no_answer (s : Settle) : bool :=
  match s with NoAnswer => true | _ => false end.

(** [init.signal?.aborted] when the catch block of the attempt runs. *)
Definition signal_aborted (sig : SignalState) (w : AttemptWorld) : bool :=
  match sig with
  | NoSignal => false
  | SignalLive => w_caller_aborts_in_flight w || w_caller_aborts_late w
  | SignalAborted => true
  end.

Definition request_signal (sig : SignalState) : ReqSignal :=
  match sig with
  | NoSignal => SigAbsent
  | SignalLive | SignalAborted => SigExternal
  end.

(** ** The platform *)

(** The pure primitives of the JavaScript platform the executor calls. *)
Class Platform : Type := {
  URL : Type;
  URL_new : string -> option URL;               (* None: throws TypeError *)
  URL_append : URL -> string -> string -> URL;  (* searchParams.append *)
  URL_href : URL -> string;                     (* toString() *)
  JSON_parse : string -> option Json;           (* None: throws SyntaxError *)
  JSON_parse_message : string -> string;        (* the message of that error *)
  JSON_stringify : Json -> string;
  DecoderState : Type;                          (* a TextDecoder in stream mode *)
  decoder_init : DecoderState;
  decode : DecoderState -> list Byte.byte -> DecoderState * string
}.

(** ** The executor *)

Section Core.

Context `{P : Platform}.

(** [try { JSON.parse(text) } catch { text }]. *)
Definition parse_or_raw (text : string) : Json :=
  match JSON_parse text with
  | Some j => j
  | None => JStr text
  end.

(** Lines 61-67. *)
Fixpoint append_searchParams (u : URL)
    (entries : list (string * option ParamValue)) : URL :=
  match entries with
  | [] => u
  | (key, Some value) :: rest =>
      append_searchParams (URL_append u key (String_of_param value)) rest
  | (_, None) :: rest => append_searchParams u rest
  end.

(** Lines 98-108: the body of a failure response, when it can be read. *)
Definition read_error_body (r : Response) : option ErrorData :=
  match r_text r with
  | inr text => Some (DataJson (parse_or_raw text))
  | inl _ => None
  end.

(** [response.json()]. *)
Definition response_json (r : Response) : Run Json :=
  match r_text r with
  | inl e => throw (TRaw e)
  | inr text =>
      match JSON_parse text with
      | Some j => ret j
      | None => throw (TRaw (SyntaxError (JSON_parse_message text)))
      end
  end.

(** Lines 122-133. *)
Definition parse_body (r : Response) : Run Json :=
  let declared_json :=
    match r_content_type r with
    | Some contentType =>
        negb (String.eqb contentType "") && includes "application/json" contentType
    | None => false
    end in
  if declared_json then response_json r
  else match r_text r with
       | inl e => throw (TRaw e)
       | inr text => ret (parse_or_raw text)
       end.

Definition http_error (requestUrl : string) (r : Response) : ZodFetchError :=
  {| message := "Request failed with status " ++ String_of_Z (r_status r);
     status := Some (r_status r);
     statusText := Some (r_statusText r);
     url := Some requestUrl;
     response := Some r;
     issues := None;
     data := read_error_body r;
     cause := network |}.

Definition validation_error (requestUrl : string) (r : Response)
    (iss : list Issue) (d : Json) : ZodFetchError :=
  {| message := "Validation error";
     status := None;
     statusText := None;
     url := Some requestUrl;
     response := Some r;
     issues := Some iss;
     data := Some (DataJson d);
     cause := validation |}.

Definition abort_error (requestUrl : string) : ZodFetchError :=
  {| message := "Request aborted";
     status := None; statusText := None;
     url := Some requestUrl;
     response := None; issues := None; data := None;
     cause := abort |}.

Definition timeout_error (requestUrl : string) : ZodFetchError :=
  {| message := "Request timed out";
     status := None; statusText := None;
     url := Some requestUrl;
     response := None; issues := None; data := None;
     cause := timeout |}.

Definition network_error (requestUrl : string) (e : RawThrown) : ZodFetchError :=
  {| message := match e with
                | RawError _ _ msg => msg
                | RawValue _ => "Network error"
                end;
     status := None; statusText := None;
     url := Some requestUrl;
     response := None; issues := None;
     data := Some (DataThrown e);
     cause := network |}.

(** [error instanceof Error && error.name === "AbortError"]. *)
Definition isAbort (error : Thrown) : bool :=
  match error with
  | TRaw (RawError _ name _) => String.eqb name "AbortError"
  | _ => false
  end.

(** [error instanceof TypeError && error.message === "Failed to fetch"]. *)
Definition is_failed_to_fetch (error : Thrown) : bool :=
  match error with
  | TRaw (RawError true _ msg) => String.eqb msg "Failed to fetch"
  | _ => false
  end.

(** [error instanceof ZodFetchError && error.status && error.status >= 500]. *)
Definition is_server_error (error : Thrown) : bool :=
  match error with
  | TZod e =>
      match status e with
      | Some s => negb (s =? 0) && (500 <=? s)
      | None => false
      end
  | _ => false
  end.

(** The second conjunct of [shouldRetry], lines 168-170. *)
Definition retry_candidate (isTimeout : bool) (error : Thrown) : bool :=
  isTimeout || is_failed_to_fetch error || is_server_error error.

(** [retryConfig.delay || 1000]. *)
Definition retry_delay (retryConfig : ZodFetchRetryOptions) : Z :=
  match delay retryConfig with
  | Some d => if d =? 0 then 1000 else d
  | None => 1000
  end.

(** [retryConfig.backoff === "exponential" ? Math.pow(2, attempt - 1) : 1]. *)
Definition backoff_multiplier (retryConfig : ZodFetchRetryOptions) (attempt : Z) : Z :=
  match backoff retryConfig with
  | Some exponential => 2 ^ (attempt - 1)
  | _ => 1
  end.

Section Attempt.

Variable options : ZodFetchOptions.
Variable requestUrl : string.
Variable headers : Headers.
Variable requestBody : option BodyValue.
Variable retryConfig : ZodFetchRetryOptions.

(** What the call of an attempt settles to.  The request carries the
    signal of the attempt's fresh controller; that controller is aborted
    by the linked listener, or by the timer when nothing else settles the
    call first. *)
Definition attempt_fetch (w : AttemptWorld) : Outcome Response :=
  platform_fetch false
    (listener_fires (opt_signal options) w || no_answer (w_settle w))
    (w_settle w).

(** The [try] block, lines 87-149. *)
Definition attempt_try (w : AttemptWorld) : Run Json :=
  emit (EvFetch {| req_url := requestUrl;
                   req_method := opt_method options;
                   req_headers := headers;
                   req_body := requestBody;
                   req_signal := SigController |}) ;;;
  let* response := settle (attempt_fetch w) in
  emit EvClearTimeout ;;;
  if negb (r_ok response) then
    throw (TZod (http_error requestUrl response))
  else
    let* data := parse_body response in
    emit (EvValidate data) ;;;
    match opt_schema options data with
    | Failure iss => throw (TZod (validation_error requestUrl response iss data))
    | Success value => ret value
    end.

(** The [catch] block, lines 151-199.  [Returned tt] is the [continue]
    of line 177. *)
Definition on_catch (aborted : bool) (attempt : Z) (error : Thrown) : Run unit :=
  emit EvClearTimeout ;;;
  let isTimeout := isAbort error && negb aborted in
  if aborted then throw (TZod (abort_error requestUrl))
  else
    let shouldRetry :=
      (attempt <=? attempts retryConfig) && retry_candidate isTimeout error in
    if shouldRetry then
      emit (EvWait (retry_delay retryConfig * backoff_multiplier retryConfig attempt))
    else
      match error with
      | TZod e => throw (TZod e)
      | TRaw e =>
          if isTimeout then throw (TZod (timeout_error requestUrl))
          else throw (TZod (network_error requestUrl e))
      end.

(** One iteration of the loop up to the point where it either leaves
    the function or continues. *)
Definition attempt_setup : Run unit :=
  emit EvNewController ;;;
  emit (EvSetTimeout (default DEFAULT_TIMEOUT (opt_timeout options))) ;;;
  match opt_signal options with
  | NoSignal => ret tt
  | SignalLive | SignalAborted => emit EvAddAbortListener
  end.

(** [while (true) { attempt++; ... }], lines 76-200.  [world k] is what
    happens during attempt number [k]; [attempt] is the counter before
    the increment of line 77.  [Pending] with no fuel left. *)
Fixpoint attempt_loop (world : Z -> AttemptWorld) (fuel : nat) (attempt : Z)
  : Run Json :=
  match fuel with
  | O => settle Pending
  | S fuel' =>
      let attempt := attempt + 1 in
      attempt_setup ;;;
      try_catch (attempt_try (world attempt))
        (fun error =>
           on_catch (signal_aborted (opt_signal options) (world attempt))
             attempt error ;;;
           attempt_loop world fuel' attempt)
  end.

End Attempt.

(** Lines 60-67: the URL every attempt calls. *)
Definition request_url (parsed : URL) (options : ZodFetchOptions) : string :=
  URL_href match opt_searchParams options with
           | Some entries => append_searchParams parsed entries
           | None => parsed
           end.

(** [zFetch(options)], lines 44-201.  The loop is given one unit of fuel
    per attempt that the retry budget allows.

    The options are the caller's after the platform accepted them:
    [opt_headers] is the object [new Headers(initHeaders)] returned and
    [opt_body] a body [JSON.stringify] serialises.  What those two calls
    throw on other inputs (lines 56-57: an invalid header name, a cyclic
    or BigInt body) leaves [zFetch] before the first attempt and has no
    counterpart here; of the exceptions of the preparation only the one of
    [new URL] (line 60) is modelled. *)
Definition zFetch (options : ZodFetchOptions) (world : Z -> AttemptWorld)
  : Run Json :=
  let '(headers, requestBody) :=
    serializeBody JSON_stringify (opt_body options) (opt_headers options) in
  match URL_new (url_toString (opt_url options)) with
  | None => throw (TRaw (RawError true "TypeError" "Invalid URL"))
  | Some parsed =>
      let retryConfig := normalize_retry (opt_retry options) in
      attempt_loop options (request_url parsed options) headers requestBody
        retryConfig world (S (Z.to_nat (attempts retryConfig))) 0
  end.

(** ** The streaming variant *)

(** The read loop, lines 227-246. *)
Fixpoint read_loop (schema : Json -> SafeParse) (decoder : DecoderState)
    (chunks : list (list Byte.byte)) (ending : ReadEnd) : Run unit :=
  match chunks with
  | [] =>
      match ending with
      | ReadDone => ret tt
      | ReadFails e => throw (TRaw e)
      | ReadStalls => settle Pending
      end
  | value :: rest =>
      let '(decoder', chunk) := decode decoder value in
      let data := parse_or_raw chunk in
      emit (EvValidate data) ;;;
      match schema data with
      | Success value => emit (EvOnChunk value)
      | Failure _ => ret tt
      end ;;;
      read_loop schema decoder' rest ending
  end.

(** What the single call of the stream variant settles to.  The caller's
    signal, when there is one, travels to [fetch] inside [...init]. *)
Definition stream_fetch (options : ZodFetchOptions) (w : AttemptWorld)
  : Outcome Response :=
  platform_fetch
    (match opt_signal options with SignalAborted => true | _ => false end)
    (aborts_while_pending (opt_signal options) w)
    (w_settle w).

(** [zFetch.stream(options)], lines 210-247, from the network call on and
    for a callback that returns normally: what [new Headers] and
    [JSON.stringify] throw during the preparation (lines 213-214) and what
    [onChunk] itself throws (line 244) have no counterpart here. *)
Definition zFetch_stream (options : ZodFetchOptions) (w : AttemptWorld)
  : Run unit :=
  let '(headers, requestBody) :=
    serializeBody JSON_stringify (opt_body options) (opt_headers options) in
  emit (EvFetch {| req_url := url_toString (opt_url options);
                   req_method := opt_method options;
                   req_headers := headers;
                   req_body := requestBody;
                   req_signal := request_signal (opt_signal options) |}) ;;;
  let* response := settle (stream_fetch options w) in
  match r_body response with
  | None => throw (TRaw (RawError false "Error" "Response body is null"))
  | Some stream => read_loop (opt_schema options) decoder_init
                     (bs_chunks stream) (bs_end stream)
  end.

(** The decoded text fragments of a body, in order. *)
Fixpoint fragments (decoder : DecoderState) (chunks : list (list Byte.byte))
  : list string :=
  match chunks with
  | [] => []
  | value :: rest =>
      let '(decoder', chunk) := decode decoder value in
      chunk :: fragments decoder' rest
  end.

(** What one fragment contributes to the callback. *)
Definition deliver (schema : Json -> SafeParse) (chunk : string) : option Json :=
  match schema (parse_or_raw chunk) with
  | Success value => Some value
  | Failure _ => None
  end.

(** ** The upload variant *)

(** What the XMLHttpRequest does after [send].  What the promise executor
    throws before or at [send] (lines 261-266 and 319: [new XMLHttpRequest],
    [xhr.open], [new Headers], [setRequestHeader]) has no counterpart
    here. *)
Inductive XhrWorld : Type :=
| XhrLoads (xhr_status : Z) (xhr_statusText xhr_responseText : string)
| XhrErrors
| XhrSilent.

(** [interface ZodFetchUploadOptions<T>].  Progress reports are floating
    point percentages and are left out. *)
Record ZodFetchUploadOptions : Type := {
  up_url : UrlInput;
  up_file : list Byte.byte;
  up_schema : Json -> SafeParse;
  up_headers : option Headers
}.

(** [zFetch.upload(options)], lines 257-321, from [send] on: the promise
    settles from the [onload] or the [onerror] handler.  The request
    headers ([up_headers], lines 264-266) play no part in either. *)
Definition zFetch_upload (options : ZodFetchUploadOptions) (w : XhrWorld)
  : Run Json :=
  let target := url_toString (up_url options) in
  emit (EvXhrSend target) ;;;
  match w with
  | XhrLoads xhr_status xhr_statusText responseText =>
      if (200 <=? xhr_status) && (xhr_status <? 300) then
        let data := parse_or_raw responseText in
        emit (EvValidate data) ;;;
        match up_schema options data with
        | Success value => ret value
        | Failure iss =>
            throw (TZod {| message := "Validation error";
                           status := None; statusText := None;
                           url := Some target;
                           response := None;
                           issues := Some iss;
                           data := Some (DataJson data);
                           cause := validation |})
        end
      else
        throw (TZod {| message := "Upload failed with status " ++ String_of_Z xhr_status;
                       status := Some xhr_status;
                       statusText := Some xhr_statusText;
                       url := Some target;
                       response := None; issues := None; data := None;
                       cause := network |})
  | XhrErrors =>
      throw (TZod {| message := "Network error during upload";
                     status := None; statusText := None;
                     url := Some target;
                     response := None; issues := None; data := None;
                     cause := network |})
  | XhrSilent => settle Pending
  end.

End Core.

(** ** A concrete platform for closed runs

    A small but genuine instance of [Platform]: JSON restricted to
    integers, strings without escapes, arrays, objects and the three
    literals; URLs that need a scheme separator; a decoder for 7-bit
    text, which has no state to carry between chunks. *)

Module Demo.

Definition dq : ascii := ascii_of_nat 34.
Definition q : string := String dq EmptyString.

Definition is_ws (c : ascii) : bool :=
  let n := nat_of_ascii c in
  ((n =? 32) || (n =? 9) || (n =? 10) || (n =? 13))%nat.

Definition is_digit (c : ascii) : bool :=
  let n := nat_of_ascii c in ((48 <=? n) && (n <=? 57))%nat.

Fixpoint skip_ws (l : list ascii) : list ascii :=
  match l with
  | c :: rest => if is_ws c then skip_ws rest else l
  | [] => []
  end.

Fixpoint take_digits (l : list ascii) (acc : Z) : Z * list ascii :=
  match l with
  | c :: rest =>
      if is_digit c
      then take_digits rest (10 * acc + Z.of_nat (nat_of_ascii c - 48))
      else (acc, l)
  | [] => (acc, [])
  end.

Definition take_number (l : list ascii) : option (Z * list ascii) :=
  match l with
  | c :: rest =>
      if is_digit c then
        match rest with
        | c' :: _ =>
            if (nat_of_ascii c =? 48)%nat && is_digit c' then None
            else Some (take_digits l 0)
        | [] => Some (take_digits l 0)
        end
      else None
  | [] => None
  end.

Fixpoint take_string (l : list ascii) : option (string * list ascii) :=
  match l with
  | [] => None
  | c :: rest =>
      if Ascii.eqb c dq then Some (EmptyString, rest)
      else if (nat_of_ascii c =? 92)%nat then None
      else match take_string rest with
           | Some (s, rest') => Some (String c s, rest')
           | None => None
           end
  end.

Fixpoint expect (lit l : list ascii) : option (list ascii) :=
  match lit, l with
  | [], _ => Some l
  | a :: lit', b :: l' => if Ascii.eqb a b then expect lit' l' else None
  | _ :: _, [] => None
  end.

Definition starts (c : ascii) (code : nat) : bool := (nat_of_ascii c =? code)%nat.

Fixpoint parse_value (fuel : nat) (l : list ascii) : option (Json * list ascii) :=
  match fuel with
  | O => None
  | S fuel' =>
      match skip_ws l with
      | [] => None
      | c :: rest =>
          if Ascii.eqb c dq then
            match take_string rest with
            | Some (s, rest') => Some (JStr s, rest')
            | None => None
            end
          else if starts c 110 then
            option_map (fun r => (JNull, r)) (expect (list_ascii_of_string "ull") rest)
          else if starts c 116 then
            option_map (fun r => (JBool true, r)) (expect (list_ascii_of_string "rue") rest)
          else if starts c 102 then
            option_map (fun r => (JBool false, r)) (expect (list_ascii_of_string "alse") rest)
          else if starts c 45 then
            option_map (fun '(n, r) => (JNum (- n), r)) (take_number rest)
          else if starts c 91 then
            match skip_ws rest with
            | c' :: rest' =>
                if starts c' 93 then Some (JArr [], rest')
                else option_map (fun '(vs, r) => (JArr vs, r)) (parse_elems fuel' rest)
            | [] => None
            end
          else if starts c 123 then
            match skip_ws rest with
            | c' :: rest' =>
                if starts c' 125 then Some (JObj [], rest')
                else option_map (fun '(fs, r) => (JObj fs, r)) (parse_members fuel' rest)
            | [] => None
            end
          else option_map (fun '(n, r) => (JNum n, r)) (take_number (c :: rest))
      end
  end
with parse_elems (fuel : nat) (l : list ascii) : option (list Json * list ascii) :=
  match fuel with
  | O => None
  | S fuel' =>
      match parse_value fuel' l with
      | Some (v, rest) =>
          match skip_ws rest with
          | c :: rest' =>
              if starts c 44 then
                option_map (fun '(vs, r) => (v :: vs, r)) (parse_elems fuel' rest')
              else if starts c 93 then Some ([v], rest')
              else None
          | [] => None
          end
      | None => None
      end
  end
with parse_members (fuel : nat) (l : list ascii)
  : option (list (string * Json) * list ascii) :=
  match fuel with
  | O => None
  | S fuel' =>
      match skip_ws l with
      | c :: rest =>
          if Ascii.eqb c dq then
            match take_string rest with
            | Some (key, rest1) =>
                match skip_ws rest1 with
                | c1 :: rest2 =>
                    if starts c1 58 then
                      match parse_value fuel' rest2 with
                      | Some (v, rest3) =>
                          match skip_ws rest3 with
                          | c3 :: rest4 =>
                              if starts c3 44 then
                                option_map (fun '(fs, r) => ((key, v) :: fs, r))
                                  (parse_members fuel' rest4)
                              else if starts c3 125 then Some ([(key, v)], rest4)
                              else None
                          | [] => None
                          end
                      | None => None
                      end
                    else None
                | [] => None
                end
            | None => None
            end
          else None
      | [] => None
      end
  end.

Definition parse (text : string) : option Json :=
  let l := list_ascii_of_string text in
  match parse_value (2 * List.length l + 2) l with
  | Some (v, rest) =>
      match skip_ws rest with
      | [] => Some v
      | _ :: _ => None
      end
  | None => None
  end.

Fixpoint stringify (j : Json) : string :=
  (match j with
  | JNull => "null"
  | JBool true => "true"
  | JBool false => "false"
  | JNum n => String_of_Z n
  | JStr s => q ++ s ++ q
  | JArr items =>
      "[" ++ (fix go (l : list Json) : string :=
                match l with
                | [] => ""
                | [x] => stringify x
                | x :: rest => stringify x ++ "," ++ go rest
                end) items ++ "]"
  | JObj fields =>
      "{" ++ (fix go (l : list (string * Json)) : string :=
                match l with
                | [] => ""
                | [(k, x)] => q ++ k ++ q ++ ":" ++ stringify x
                | (k, x) :: rest => q ++ k ++ q ++ ":" ++ stringify x ++ "," ++ go rest
                end) fields ++ "}"
  end)%string.

(** A URL: its text up to the query, and the query pairs. *)
Definition url_new (text : string) : option (string * list (string * string)) :=
  if includes "://" text then Some (text, []) else None.

Fixpoint query (ps : list (string * string)) : string :=
  (match ps with
   | [] => ""
   | [(k, v)] => k ++ "=" ++ v
   | (k, v) :: rest => k ++ "=" ++ v ++ "&" ++ query rest
   end)%string.

Definition url_href (u : string * list (string * string)) : string :=
  match snd u with
  | [] => fst u
  | ps => (fst u ++ "?" ++ query ps)%string
  end.

#[local] Instance platform : Platform := {|
  URL := string * list (string * string);
  URL_new := url_new;
  URL_append := fun u k v => (fst u, snd u ++ [(k, v)]);
  URL_href := url_href;
  JSON_parse := parse;
  JSON_parse_message := fun text => ("Unexpected token in JSON: " ++ text)%string;
  JSON_stringify := stringify;
  DecoderState := unit;
  decoder_init := tt;
  decode := fun _ bytes => (tt, string_of_list_byte bytes)
|}.

(** Schemas. *)

(** [z.object({ count: z.number() })]: unknown keys are stripped. *)
Definition count_schema (d : Json) : SafeParse :=
  match d with
  | JObj fields =>
      match List.find (fun kv => String.eqb (fst kv) "count") fields with
      | Some (_, JNum n) => Success (JObj [("count", JNum n)])
      | _ => Failure ["count: expected number"]
      end
  | _ => Failure ["expected object"]
  end.

(** [z.string()]. *)
Definition string_schema (d : Json) : SafeParse :=
  match d with
  | JStr s => Success (JStr s)
  | _ => Failure ["expected string"]
  end.

(** [z.any()]. *)
Definition any_schema (d : Json) : SafeParse := Success d.

Definition bytes (s : string) : list Byte.byte := list_byte_of_string s.

Definition count_text (n : Z) : string := stringify (JObj [("count", JNum n)]).

(** A response with the given status and body text. *)
Definition respond (st : Z) (text : string) : Response :=
  {| r_status := st;
     r_statusText := "";
     r_content_type := Some "application/json";
     r_text := inr text;
     r_body := Some {| bs_chunks := [bytes text]; bs_end := ReadDone |} |}.

(** The server answers every attempt the same way and the caller never
    aborts. *)
Definition always (s : Settle) : Z -> AttemptWorld :=
  fun _ => {| w_caller_aborts_in_flight := false;
              w_settle := s;
              w_caller_aborts_late := false |}.

Definition once (s : Settle) : AttemptWorld := always s 1.

Definition get (target : string) (schema : Json -> SafeParse) : ZodFetchOptions :=
  {| opt_url := UrlString target;
     opt_schema := schema;
     opt_searchParams := None;
     opt_body := BodyUndefined;
     opt_timeout := None;
     opt_retry := None;
     opt_headers := ∅;
     opt_method := None;
     opt_signal := NoSignal |}.

Definition with_retry (r : RetryOption) (o : ZodFetchOptions) : ZodFetchOptions :=
  {| opt_url := opt_url o; opt_schema := opt_schema o;
     opt_searchParams := opt_searchParams o; opt_body := opt_body o;
     opt_timeout := opt_timeout o; opt_retry := Some r;
     opt_headers := opt_headers o; opt_method := opt_method o;
     opt_signal := opt_signal o |}.

Definition with_signal (s : SignalState) (o : ZodFetchOptions) : ZodFetchOptions :=
  {| opt_url := opt_url o; opt_schema := opt_schema o;
     opt_searchParams := opt_searchParams o; opt_body := opt_body o;
     opt_timeout := opt_timeout o; opt_retry := opt_retry o;
     opt_headers := opt_headers o; opt_method := opt_method o;
     opt_signal := s |}.

(** A response whose body arrives as the given text fragments. *)
Definition respond_stream (st : Z) (frags : list string) : Response :=
  {| r_status := st;
     r_statusText := "";
     r_content_type := None;
     r_text := inr (String.concat "" frags);
     r_body := Some {| bs_chunks := map bytes frags; bs_end := ReadDone |} |}.

(** The requests of the test suite. *)
Definition stream_example : ZodFetchOptions :=
  get "https://api.example.com/stream" count_schema.

Definition users_example : ZodFetchOptions :=
  get "https://api.example.com/users/1" count_schema.

Definition error500_example (retry : ZodFetchRetryOptions) : ZodFetchOptions :=
  with_retry (RetryObject retry) (get "https://api.example.com/error/500" any_schema).

Definition always500 : Z -> AttemptWorld := always (Responds (respond 500 "")).

End Demo.

(** ** Vocabulary of the statements *)

Section Vocabulary.

Context `{P : Platform}.

(** The events one decoded fragment gives rise to in the read loop. *)
Definition fragment_events (schema : Json -> SafeParse) (chunk : string)
  : list Event :=
  EvValidate (parse_or_raw chunk) ::
  match schema (parse_or_raw chunk) with
  | Success value => [EvOnChunk value]
  | Failure _ => []
  end.

(** The calls and suspensions of a run in which attempt [first] and the
    [retries] attempts after it all fail and are retried, followed by one
    last call. *)
Fixpoint plan (retryConfig : ZodFetchRetryOptions) (first : Z) (retries : nat)
  : list Step :=
  match retries with
  | O => [Call]
  | S n =>
      Call :: Sleep (retry_delay retryConfig * backoff_multiplier retryConfig first)
           :: plan retryConfig (first + 1) n
  end.


Definition sleeps (s : list Step) : list Z :=
  omap (fun st => match st with Sleep ms => Some ms | Call => None end) s.

Definition calls (s : list Step) : nat :=
  length (omap (fun st => match st with Call => Some tt | Sleep _ => None end) s).

(** The error the catch block raises for a failure it does not retry
    while the caller's signal is not aborted, lines 180-198. *)
Definition final_error (requestUrl : string) (error : Thrown) : ZodFetchError :=
  match error with
  | TZod e => e
  | TRaw e => if isAbort error then timeout_error requestUrl
              else network_error requestUrl e
  end.

(** An attempt fails with a retry-eligible failure: its try block raises
    an error that passes the eligibility test of lines 168-170 while the
    caller's signal is not aborted. *)
Definition fails_retryably (options : ZodFetchOptions) (requestUrl : string)
    (headers : Headers) (requestBody : option BodyValue) (w : AttemptWorld) : Prop :=
  signal_aborted (opt_signal options) w = false /\
  exists e,
    outcome (attempt_try options requestUrl headers requestBody w) = Raised e /\
    retry_candidate (isAbort e) e = true.

End Vocabulary.

(** ** The client builder of [src/client.ts] *)

(** [String.prototype.endsWith]. *)
Fixpoint endsWith (suffix s : string) : bool :=
  String.eqb s suffix ||
  match s with
  | EmptyString => false
  | String _ rest => endsWith suffix rest
  end.

(** [s.slice(1)]. *)
Definition slice1 (s : string) : string :=
  match s with
  | EmptyString => EmptyString
  | String _ rest => rest
  end.

(** [resolveUrl], lines 20-29.  [baseURL] is [None] when the
    configuration has none; the empty string is falsy as well. *)
Definition resolveUrl (baseURL : option string) (target : UrlInput) : string :=
  match target with
  | UrlObject href => href
  | UrlString s =>
      match baseURL with
      | Some b =>
          if negb (String.eqb b "") && negb (String.prefix "http" s) then
            let base := if endsWith "/" b then b else (b ++ "/")%string in
            let path := if String.prefix "/" s then slice1 s else s in
            (base ++ path)%string
          else s
      | None => s
      end
  end.

(** [HeadersInit]: a list of name/value pairs (a record or an array of
    pairs), or an existing [Headers] object. *)
Inductive HeadersInit : Type :=
| InitPairs (entries : list (string * string))
| InitHeaders (h : Headers).

(** [Headers.prototype.append]: a second value for a name is joined to
    the first with a comma. *)
Definition Headers_append (name value : string) (h : Headers) : Headers :=
  match h !! lower name with
  | Some old => <[lower name := (old ++ ", " ++ value)%string]> h
  | None => <[lower name := value]> h
  end.

(** [new Headers(init)]. *)
Definition Headers_new (init : option HeadersInit) : Headers :=
  match init with
  | None => ∅
  | Some (InitPairs entries) =>
      foldl (fun h kv => Headers_append (fst kv) (snd kv) h) ∅ entries
  | Some (InitHeaders h) => h
  end.

(** [h.forEach((v, k) => headers.set(k, v))]. *)
Definition Headers_set_all (h headers : Headers) : Headers :=
  map_fold (fun k v acc => Headers_set k v acc) headers h.

(** The values the option objects of the library hold. *)
Inductive OptionValue : Type :=
| OUndefined
| OString (s : string)
| OURL (href : string)
| OSchema (schema : Json -> SafeParse)
| OSearchParams (entries : list (string * option ParamValue))
| OBody (b : BodyValue)
| ONumber (n : Z)
| ORetry (r : ZodFetchRetryOptions)
| OHeaders (init : HeadersInit)
| OSignal (aborted : bool).

(** An option object: its own properties.  [{...a, ...b}] is [b ∪ a], the
    properties of the later operand winning, and a rest pattern is a
    [delete]. *)
Abbreviation JsObject := (gmap string OptionValue).

Definition headers_init (v : option OptionValue) : option HeadersInit :=
  match v with
  | Some (OHeaders init) => Some init
  | _ => None
  end.

(** [mergeOptions], lines 31-47, for the client's base options (the
    configuration without [baseURL]). *)
Definition mergeOptions (baseOptions options : JsObject) : JsObject :=
  let baseHeaders := baseOptions !! "headers" in
  let restBase := delete "headers" baseOptions in
  let optHeaders := options !! "headers" in
  let restOpt := delete "headers" options in
  let headers := Headers_new (headers_init baseHeaders) in
  let headers :=
    match headers_init optHeaders with
    | Some init => Headers_set_all (Headers_new (Some init)) headers
    | None => headers
    end in
  <["headers" := OHeaders (InitHeaders headers)]> (restOpt ∪ restBase).

Definition config_baseURL (config : JsObject) : option string :=
  match config !! "baseURL" with
  | Some (OString b) => Some b
  | _ => None
  end.

Definition url_input (v : option OptionValue) : option UrlInput :=
  match v with
  | Some (OString s) => Some (UrlString s)
  | Some (OURL href) => Some (UrlObject href)
  | _ => None
  end.

(** The argument [get], [post], [put], [patch] and [delete] hand to
    [zFetch], lines 50-59:
    [{ url: resolveUrl(url), schema, method, ...mergeOptions(options) }]. *)
Definition method_request (config : JsObject) (method : string)
    (target : UrlInput) (schema : Json -> SafeParse) (options : JsObject)
  : JsObject :=
  mergeOptions (delete "baseURL" config) options ∪
  <["url" := OString (resolveUrl (config_baseURL config) target)]>
    (<["schema" := OSchema schema]> (<["method" := OString method]> ∅)).

(** The argument [fetch] hands to [zFetch], lines 60-61:
    [{ ...options, url: resolveUrl(options.url), ...mergeOptions(options) }].
    [None] when [options.url] is neither a string nor a URL. *)
Definition fetch_request (config options : JsObject) : option JsObject :=
  match url_input (options !! "url") with
  | Some target =>
      Some (mergeOptions (delete "baseURL" config) options ∪
            <["url" := OString (resolveUrl (config_baseURL config) target)]> options)
  | None => None
  end.

(** The destructuring of lines 45-54, on an object that has the types
    [ZodFetchOptions] declares; [None] without a [url] or a [schema]. *)
Definition options_of (o : JsObject) : option ZodFetchOptions :=
  match url_input (o !! "url"), o !! "schema" with
  | Some target, Some (OSchema schema) =>
      Some {| opt_url := target;
              opt_schema := schema;
              opt_searchParams :=
                match o !! "searchParams" with
                | Some (OSearchParams entries) => Some entries
                | _ => None
                end;
              opt_body :=
                match o !! "body" with
                | Some (OBody b) => b
                | _ => BodyUndefined
                end;
              opt_timeout :=
                match o !! "timeout" with
                | Some (ONumber n) => Some n
                | _ => None
                end;
              opt_retry :=
                match o !! "retry" with
                | Some (ONumber n) => Some (RetryNumber n)
                | Some (ORetry r) => Some (RetryObject r)
                | _ => None
                end;
              opt_headers := Headers_new (headers_init (o !! "headers"));
              opt_method :=
                match o !! "method" with
                | Some (OString m) => Some m
                | _ => None
                end;
              opt_signal :=
                match o !! "signal" with
                | Some (OSignal true) => SignalAborted
                | Some (OSignal false) => SignalLive
                | _ => NoSignal
                end |}
  | _, _ => None
  end.

Section ClientRun.

Context `{P : Platform}.

(** [zFetch] applied to an option object. *)
Definition zFetch_object (o : JsObject) (world : Z -> AttemptWorld)
  : option (Run Json) :=
  option_map (fun options => zFetch options world) (options_of o).

End ClientRun.

(** ** Operation names of the generator, [src/cli/index.ts] lines 54-55

    A character of a string stands for one code unit. *)

Definition is_alnum (c : ascii) : bool :=
  let n := nat_of_ascii c in
  (((48 <=? n) && (n <=? 57)) || ((65 <=? n) && (n <=? 90))
   || ((97 <=? n) && (n <=? 122)))%nat.

Fixpoint map_chars (f : ascii -> ascii) (s : string) : string :=
  match s with
  | EmptyString => EmptyString
  | String c rest => String (f c) (map_chars f rest)
  end.

Fixpoint remove_chars (p : ascii -> bool) (s : string) : string :=
  match s with
  | EmptyString => EmptyString
  | String c rest => if p c then remove_chars p rest else String c (remove_chars p rest)
  end.

Definition underscore : ascii := ascii_of_nat 95.

(** [route.replace(/\//g, "_").replace(/[{}]/g, "")]. *)
Definition route_name (route : string) : string :=
  remove_chars (fun c => let n := nat_of_ascii c in ((n =? 123) || (n =? 125))%nat)
    (map_chars (fun c => if (nat_of_ascii c =? 47)%nat then underscore else c) route).

(** [operationId.replace(/[^a-zA-Z0-9]/g, "_")]. *)
Definition sanitize (operationId : string) : string :=
  map_chars (fun c => if is_alnum c then c else underscore) operationId.

(** Lines 54-55: the declared id when there is a non-empty one, the
    method followed by the route otherwise. *)
Definition safeOperationId (declared : option string) (method route : string)
  : string :=
  let operationId :=
    match declared with
    | Some id => if String.eqb id "" then (method ++ route_name route)%string else id
    | None => (method ++ route_name route)%string
    end in
  sanitize operationId.

(** ** More vocabulary *)

(** The search parameters that have a value, as the strings that are
    appended. *)
Definition defined_params (entries : list (string * option ParamValue))
  : list (string * string) :=
  omap (fun kv => option_map (fun v => (fst kv, String_of_param v)) (snd kv)) entries.

(** The names of a genuine [Headers] object are in lower case. *)
Definition lowercase_names (h : Headers) : Prop :=
  forall name, is_Some (h !! name) -> lower name = name.

Definition all_alnum (s : string) : bool :=
  forallb is_alnum (list_ascii_of_string s).

(** Follows the timer of the current attempt along a trace: [None] when
    a timer is set while one is live, when a call is made without a live
    timer or when the executor suspends with a live timer; otherwise
    whether a timer is live at the end. *)
Fixpoint timer_discipline (t : list Event) (live : bool) : option bool :=
  match t with
  | [] => Some live
  | EvSetTimeout _ :: rest => if live then None else timer_discipline rest true
  | EvClearTimeout :: rest => timer_discipline rest false
  | EvFetch _ :: rest => if live then timer_discipline rest live else None
  | EvWait _ :: rest => if live then None else timer_discipline rest live
  | _ :: rest => timer_discipline rest live
  end.

(** The client of the test suite. *)
Module Samples.

Definition config : JsObject :=
  <["baseURL" := OString "https://api.example.com"]>
    (<["headers" := OHeaders (InitPairs [("X-API-Key", "secret")])]> ∅).

Definition post_options : JsObject :=
  <["body" := OBody (BodyObject (JObj [("title", JStr "Hello");
                                       ("content", JStr "World")]))]>
    (<["headers" := OHeaders (InitPairs [("x-api-key", "other");
                                         ("Accept", "application/json")])]> ∅).

Definition fetch_options : JsObject :=
  <["url" := OString "/users/1"]> (<["schema" := OSchema Demo.any_schema]> ∅).

(** What [new URL(text)] gives on the concrete platform. *)
Definition parsed (text : string) : @URL Demo.platform := (text, []).


Definition timeout_options : ZodFetchOptions :=
  {| opt_url := UrlString "https://api.example.com/timeout";
     opt_schema := Demo.any_schema;
     opt_searchParams := None;
     opt_body := BodyUndefined;
     opt_timeout := Some 500;
     opt_retry := None;
     opt_headers := ∅;
     opt_method := None;
     opt_signal := NoSignal |}.

Definition post_example : ZodFetchOptions :=
  {| opt_url := UrlString "https://api.example.com/posts";
     opt_schema := Demo.any_schema;
     opt_searchParams := None;
     opt_body := BodyObject (JObj [("title", JStr "Hello")]);
     opt_timeout := None;
     opt_retry := None;
     opt_headers := {["x-api-key" := "secret"]};
     opt_method := Some "POST";
     opt_signal := NoSignal |}.

(** The first attempt is answered with 500, the later ones with a body
    the schema accepts. *)
Definition recovering : Z -> AttemptWorld :=
  fun k => if k =? 1 then Demo.always500 k
           else Demo.always (Responds (Demo.respond 200 (Demo.count_text 1))) k.

Definition aborting : Z -> AttemptWorld :=
  fun _ => {| w_caller_aborts_in_flight := true;
              w_settle := NoAnswer;
              w_caller_aborts_late := false |}.

Definition upload_example : ZodFetchUploadOptions :=
  {| up_url := UrlString "https://api.example.com/upload";
     up_file := Demo.bytes "content";
     up_schema := Demo.any_schema;
     up_headers := None |}.

Definition base_options : JsObject :=
  <["timeout" := ONumber 5000]>
    (<["headers" := OHeaders (InitPairs [("X-API-Key", "secret")])]> ∅).

Definition request_options : JsObject :=
  <["timeout" := OUndefined]> post_options.

(** A POST with a structured body and search parameters, one of them
    undefined. *)
Definition search_example : ZodFetchOptions :=
  set_searchParams
    (Some [("page", Some (PNumber 2)); ("cursor", None);
           ("q", Some (PString "zod")); ("all", Some (PBool true))])
    (Demo.with_retry (RetryNumber 1) post_example).

End Samples.

(** * Properties *)

(** ** The effect monad *)

Lemma bind_emit {B} (ev : Event) (k : unit -> Run B) :
  bind (emit ev) k = (ev :: trace (k tt), outcome (k tt)).
Proof. unfold bind, emit, trace, outcome. destruct (k tt); reflexivity. Qed.

Lemma bind_ret {A B} (a : A) (k : A -> Run B) : bind (ret a) k = k a.
Proof. unfold bind, ret. destruct (k a); reflexivity. Qed.

Lemma trace_bind {A B} (m : Run A) (k : A -> Run B) :
  trace (bind m k) =
  trace m ++ match outcome m with
             | Returned a => trace (k a)
             | _ => []
             end.
Proof.
  destruct m as [t [a|e|]]; unfold bind, trace, outcome; simpl.
  - destruct (k a); reflexivity.
  - symmetry; apply app_nil_r.
  - symmetry; apply app_nil_r.
Qed.

Lemma outcome_bind {A B} (m : Run A) (k : A -> Run B) :
  outcome (bind m k) =
  match outcome m with
  | Returned a => outcome (k a)
  | Raised e => Raised e
  | Pending => Pending
  end.
Proof.
  destruct m as [t [a|e|]]; unfold bind, outcome; simpl; try reflexivity.
  destruct (k a); reflexivity.
Qed.

Lemma trace_try_catch {A} (m : Run A) (h : Thrown -> Run A) :
  trace (try_catch m h) =
  trace m ++ match outcome m with
             | Raised e => trace (h e)
             | _ => []
             end.
Proof.
  destruct m as [t [a|e|]]; unfold try_catch, trace, outcome; simpl.
  - symmetry; apply app_nil_r.
  - destruct (h e); reflexivity.
  - symmetry; apply app_nil_r.
Qed.

Lemma outcome_try_catch {A} (m : Run A) (h : Thrown -> Run A) :
  outcome (try_catch m h) =
  match outcome m with
  | Raised e => outcome (h e)
  | other => other
  end.
Proof.
  destruct m as [t [a|e|]]; unfold try_catch, outcome; simpl; try reflexivity.
  destruct (h e); reflexivity.
Qed.

Lemma trace_pair {A} (t : list Event) (o : Outcome A) : trace (t, o) = t.
Proof. reflexivity. Qed.

Lemma outcome_pair {A} (t : list Event) (o : Outcome A) : outcome (t, o) = o.
Proof. reflexivity. Qed.

(** ** Body serialisation *)

Lemma lower_content_type : lower "Content-Type" = "content-type".
Proof. reflexivity. Qed.

(** Claim C6, as amended: a present body that is an object and none of
    Blob, FormData, URLSearchParams, ReadableStream is replaced by its
    JSON text, and Content-Type becomes application/json exactly when no
    Content-Type was set (an existing one is kept, every other header is
    untouched); every other present body -- one of the four encoded
    kinds, or a string -- is passed through unchanged with the headers
    untouched. *)
Theorem serializeBody_spec (stringify : Json -> string)
    (body : BodyValue) (headers : Headers) :
  body_present body = true ->
  let r := serializeBody stringify body headers in
  (forall v, body = BodyObject v ->
     snd r = Some (BodyString (stringify v)) /\
     (headers !! "content-type" = None ->
        fst r = <["content-type" := "application/json"]> headers) /\
     (is_Some (headers !! "content-type") -> fst r = headers) /\
     fst r !! "content-type" =
       Some (default "application/json" (headers !! "content-type")) /\
     (forall name, name <> "content-type" -> fst r !! name = headers !! name)) /\
  (is_structured body = false -> r = (headers, Some body)).
Proof.
  intros Hpresent r. split.
  - intros v ->. subst r. unfold serializeBody, Headers_has, Headers_set.
    rewrite lower_content_type.
    destruct (headers !! "content-type") as [x|] eqn:Hct; simpl.
    + split; [reflexivity|]. split; [discriminate|]. split; [reflexivity|].
      split; [exact Hct|reflexivity].
    + split; [reflexivity|]. split; [reflexivity|].
      split; [intros [? ?]; discriminate|].
      split; [apply lookup_insert_eq|].
      intros name Hne. apply lookup_insert_ne. congruence.
  - intros Hs. subst r. destruct body; simpl in *; try discriminate; reflexivity.
Qed.

(** ** The streaming variant *)

Section StreamFacts.

Context `{P : Platform}.

Lemma read_loop_trace schema decoder chunks ending :
  trace (read_loop schema decoder chunks ending) =
  flat_map (fragment_events schema) (fragments decoder chunks).
Proof.
  revert decoder. induction chunks as [|value rest IH]; intros decoder.
  - simpl. destruct ending; reflexivity.
  - cbn [read_loop fragments]. destruct (decode decoder value) as [decoder' chunk].
    rewrite bind_emit. cbn [trace fst flat_map].
    rewrite trace_bind, IH. unfold fragment_events.
    destruct (schema (parse_or_raw chunk)); reflexivity.
Qed.

Lemma read_loop_outcome schema decoder chunks ending :
  outcome (read_loop schema decoder chunks ending) =
  match ending with
  | ReadDone => Returned tt
  | ReadFails e => Raised (TRaw e)
  | ReadStalls => Pending
  end.
Proof.
  revert decoder. induction chunks as [|value rest IH]; intros decoder.
  - simpl. destruct ending; reflexivity.
  - cbn [read_loop]. destruct (decode decoder value) as [decoder' chunk].
    rewrite bind_emit. cbn [outcome snd].
    rewrite outcome_bind.
    destruct (schema (parse_or_raw chunk)); simpl; apply IH.
Qed.

Lemma callbacks_fragment_events schema l :
  callbacks (flat_map (fragment_events schema) l) = omap (deliver schema) l.
Proof.
  induction l as [|chunk l IH]; [reflexivity|].
  simpl. unfold callbacks in *. rewrite omap_app, IH.
  unfold deliver. destruct (schema (parse_or_raw chunk)); reflexivity.
Qed.

Lemma validations_fragment_events schema l :
  validations (flat_map (fragment_events schema) l) = map parse_or_raw l.
Proof.
  induction l as [|chunk l IH]; [reflexivity|].
  simpl. unfold validations in *. rewrite omap_app, IH.
  destruct (schema (parse_or_raw chunk)); reflexivity.
Qed.

Lemma fragment_events_quiet schema l :
  let t := flat_map (fragment_events schema) l in
  fetches t = [] /\ timers t = [] /\ waits t = [] /\ controllers t = [].
Proof.
  induction l as [|chunk l IH]; [repeat split|].
  simpl in *. destruct IH as (H1 & H2 & H3 & H4).
  unfold fetches, timers, waits, controllers in *.
  rewrite !omap_app, H1, H2, H3, H4.
  destruct (schema (parse_or_raw chunk)); repeat split.
Qed.

(** The trace of the stream variant, whatever the world does. *)
Lemma zFetch_stream_trace options w :
  exists req,
    req_url req = url_toString (opt_url options) /\
    req_signal req = request_signal (opt_signal options) /\
    trace (zFetch_stream options w) =
    EvFetch req ::
    match stream_fetch options w with
    | Returned r =>
        match r_body r with
        | Some stream =>
            flat_map (fragment_events (opt_schema options))
              (fragments decoder_init (bs_chunks stream))
        | None => []
        end
    | _ => []
    end.
Proof.
  unfold zFetch_stream.
  destruct (serializeBody JSON_stringify (opt_body options) (opt_headers options))
    as [headers requestBody].
  exists {| req_url := url_toString (opt_url options);
            req_method := opt_method options;
            req_headers := headers;
            req_body := requestBody;
            req_signal := request_signal (opt_signal options) |}.
  split; [reflexivity|]. split; [reflexivity|].
  rewrite bind_emit. unfold trace at 1. cbn [fst]. f_equal. cbv beta.
  rewrite trace_bind. unfold settle, trace at 1, outcome. cbn [fst snd app].
  destruct (stream_fetch options w) as [r| |]; try reflexivity.
  destruct (r_body r); [apply read_loop_trace|reflexivity].
Qed.

Lemma zFetch_stream_outcome options w :
  outcome (zFetch_stream options w) =
  match stream_fetch options w with
  | Returned r =>
      match r_body r with
      | Some stream =>
          match bs_end stream with
          | ReadDone => Returned tt
          | ReadFails e => Raised (TRaw e)
          | ReadStalls => Pending
          end
      | None => Raised (TRaw (RawError false "Error" "Response body is null"))
      end
  | Raised e => Raised e
  | Pending => Pending
  end.
Proof.
  unfold zFetch_stream.
  destruct (serializeBody JSON_stringify (opt_body options) (opt_headers options))
    as [headers requestBody].
  rewrite bind_emit. unfold outcome at 1. cbn [snd]. cbv beta.
  rewrite outcome_bind. unfold settle, outcome at 1. cbn [snd].
  destruct (stream_fetch options w) as [r| |]; try reflexivity.
  destruct (r_body r); [apply read_loop_outcome|reflexivity].
Qed.

(** Claim C7, as amended: once the call has produced a response with a
    body, every decoded fragment is handled on its own -- parsed as JSON,
    or kept as the raw string when that fails, then validated -- and the
    callback receives exactly the validated values of the fragments the
    schema accepts, in fragment order.  A fragment the schema rejects
    contributes nothing; a fragment that does not parse is dropped only
    when the schema also rejects its raw string.  Rejected fragments raise
    nothing: the run makes one call, never waits, and ends as the body
    stream ends. *)
Theorem stream_fragments options w r stream :
  stream_fetch options w = Returned r ->
  r_body r = Some stream ->
  let run := zFetch_stream options w in
  let frags := fragments decoder_init (bs_chunks stream) in
  callbacks (trace run) = omap (deliver (opt_schema options)) frags /\
  validations (trace run) = map parse_or_raw frags /\
  length (fetches (trace run)) = 1%nat /\
  waits (trace run) = [] /\
  outcome run = match bs_end stream with
                | ReadDone => Returned tt
                | ReadFails e => Raised (TRaw e)
                | ReadStalls => Pending
                end.
Proof.
  intros Hfetch Hbody run frags. subst run frags.
  rewrite zFetch_stream_outcome, Hfetch, Hbody.
  destruct (zFetch_stream_trace options w) as (req & _ & _ & ->).
  rewrite Hfetch, Hbody.
  set (l := flat_map _ _).
  change (callbacks (EvFetch req :: l)) with (callbacks l).
  change (validations (EvFetch req :: l)) with (validations l).
  change (fetches (EvFetch req :: l)) with (req :: fetches l).
  change (waits (EvFetch req :: l)) with (waits l).
  subst l.
  rewrite callbacks_fragment_events, validations_fragment_events.
  destruct (fragment_events_quiet (opt_schema options)
              (fragments decoder_init (bs_chunks stream))) as (-> & _ & -> & _).
  repeat split.
Qed.

(** An error of the stream variant is never a [ZodFetchError]: the
    variant has no catch block, so whatever its call, its body check or
    its reader raises leaves it as it is. *)
Lemma zFetch_stream_raises_raw options w e :
  outcome (zFetch_stream options w) = Raised e -> exists raw, e = TRaw raw.
Proof.
  rewrite zFetch_stream_outcome. unfold stream_fetch, platform_fetch.
  destruct (_ || _).
  - intros [= <-]. eauto.
  - destruct (w_settle w) as [r|raw|].
    + destruct (r_body r) as [stream|]; [destruct (bs_end stream)|];
        intros [= <-] || discriminate; eauto.
    + intros [= <-]. eauto.
    + discriminate.
Qed.

(** Every error of the upload variant is a [ZodFetchError] of kind
    network or validation. *)
Lemma zFetch_upload_raises_classified options w e :
  outcome (zFetch_upload options w) = Raised e ->
  exists z, e = TZod z /\ (cause z = network \/ cause z = validation).
Proof.
  unfold zFetch_upload. rewrite bind_emit. unfold outcome at 1. cbn [snd]. cbv beta.
  destruct w as [st stt txt| |].
  - destruct (_ && _).
    + rewrite bind_emit. unfold outcome at 1. cbn [snd]. cbv beta.
      destruct (up_schema options (parse_or_raw txt)); [discriminate|].
      intros [= <-]. eexists; split; [reflexivity|right; reflexivity].
    + intros [= <-]. eexists; split; [reflexivity|left; reflexivity].
  - intros [= <-]. eexists; split; [reflexivity|left; reflexivity].
  - discriminate.
Qed.

End StreamFacts.

(** ** The attempt loop *)

Section LoopFacts.

Context `{P : Platform}.

Variable options : ZodFetchOptions.
Variable requestUrl : string.
Variable headers : Headers.
Variable requestBody : option BodyValue.
Variable retryConfig : ZodFetchRetryOptions.

Local Abbreviation try_ := (attempt_try options requestUrl headers requestBody).
Local Abbreviation catch_ := (on_catch requestUrl retryConfig).
Local Abbreviation loop := (attempt_loop options requestUrl headers requestBody retryConfig).
Local Abbreviation request :=
  {| req_url := requestUrl; req_method := opt_method options;
     req_headers := headers; req_body := requestBody;
     req_signal := SigController |}.

(** The catch block, case by case. *)
Lemma on_catch_spec aborted attempt error :
  catch_ aborted attempt error =
  if aborted then ([EvClearTimeout], Raised (TZod (abort_error requestUrl)))
  else if (attempt <=? attempts retryConfig) && retry_candidate (isAbort error) error
  then ([EvClearTimeout;
         EvWait (retry_delay retryConfig * backoff_multiplier retryConfig attempt)],
        Returned tt)
  else ([EvClearTimeout], Raised (TZod (final_error requestUrl error))).
Proof.
  unfold on_catch. rewrite bind_emit. destruct aborted; [reflexivity|].
  rewrite andb_true_r.
  destruct ((attempt <=? attempts retryConfig) && _); [reflexivity|].
  destruct error as [raw|z]; [|reflexivity].
  unfold final_error. destruct (isAbort (TRaw raw)); reflexivity.
Qed.

Lemma parse_body_trace r : trace (parse_body r) = [].
Proof.
  unfold parse_body, response_json.
  destruct (match r_content_type r with Some _ => _ | None => _ end);
    destruct (r_text r); try reflexivity.
  destruct (JSON_parse s); reflexivity.
Qed.

Lemma parse_body_settles r : outcome (parse_body r) <> Pending.
Proof.
  unfold parse_body, response_json.
  destruct (match r_content_type r with Some _ => _ | None => _ end);
    destruct (r_text r); try discriminate.
  destruct (JSON_parse s); discriminate.
Qed.

Local Abbreviation fetch_ := (attempt_fetch options).

Lemma attempt_fetch_settles w : fetch_ w <> Pending.
Proof.
  unfold attempt_fetch, platform_fetch. destruct (w_settle w), (listener_fires _ _);
    simpl; discriminate.
Qed.

Lemma attempt_fetch_returned w r :
  fetch_ w = Returned r -> w_settle w = Responds r.
Proof.
  unfold attempt_fetch, platform_fetch. destruct (w_settle w), (listener_fires _ _);
    simpl; congruence.
Qed.

(** The try block, case by case. *)
Lemma attempt_try_spec w :
  try_ w =
  match fetch_ w with
  | Returned r =>
      if negb (r_ok r)
      then ([EvFetch request; EvClearTimeout], Raised (TZod (http_error requestUrl r)))
      else match outcome (parse_body r) with
           | Returned d =>
               ([EvFetch request; EvClearTimeout; EvValidate d],
                match opt_schema options d with
                | Success value => Returned value
                | Failure iss => Raised (TZod (validation_error requestUrl r iss d))
                end)
           | Raised e => ([EvFetch request; EvClearTimeout], Raised e)
           | Pending => ([EvFetch request; EvClearTimeout], Pending)
           end
  | Raised e => ([EvFetch request], Raised e)
  | Pending => ([EvFetch request], Pending)
  end.
Proof.
  unfold attempt_try.
  rewrite bind_emit.
  destruct (fetch_ w) as [r|e|]; try reflexivity.
  change (settle (Returned r)) with (ret r). rewrite bind_ret, bind_emit.
  destruct (negb (r_ok r)); [reflexivity|].
  pose proof (parse_body_trace r) as Ht.
  destruct (parse_body r) as [t [d|e|]]; cbn [trace fst] in Ht; subst t;
    try reflexivity.
  change (@pair (list Event) (Outcome Json) [] (Returned d)) with (ret d).
  rewrite bind_ret, bind_emit.
  change (outcome (ret d)) with (Returned d). cbv iota beta.
  destruct (opt_schema options d); reflexivity.
Qed.

Lemma attempt_setup_spec :
  attempt_setup options =
  (EvNewController
     :: EvSetTimeout (default DEFAULT_TIMEOUT (opt_timeout options))
     :: match opt_signal options with
        | NoSignal => []
        | SignalLive | SignalAborted => [EvAddAbortListener]
        end,
   Returned tt).
Proof.
  unfold attempt_setup. rewrite !bind_emit. destruct (opt_signal options); reflexivity.
Qed.

Lemma attempt_try_settles w : outcome (try_ w) <> Pending.
Proof.
  rewrite attempt_try_spec.
  pose proof (attempt_fetch_settles w) as Hf.
  destruct (fetch_ w) as [r|e|]; [|discriminate|congruence].
  destruct (negb (r_ok r)); [discriminate|].
  pose proof (parse_body_settles r) as Hp.
  destruct (outcome (parse_body r)) as [d|e|]; [|discriminate|congruence].
  cbn. destruct (opt_schema options d); discriminate.
Qed.

(** Each attempt makes exactly one call and never suspends. *)
Lemma attempt_try_schedule w : schedule (trace (try_ w)) = [Call].
Proof.
  rewrite attempt_try_spec.
  destruct (fetch_ w) as [r|e|]; try reflexivity.
  destruct (negb (r_ok r)); [reflexivity|].
  destruct (outcome (parse_body r)); reflexivity.
Qed.

(** What an attempt can raise. *)
Lemma attempt_try_raised w e :
  outcome (try_ w) = Raised e ->
  (exists raw, e = TRaw raw) \/
  (exists r, e = TZod (http_error requestUrl r) /\ r_ok r = false) \/
  (exists r iss d, e = TZod (validation_error requestUrl r iss d)).
Proof.
  rewrite attempt_try_spec.
  destruct (fetch_ w) as [r|e'|] eqn:Hf.
  - destruct (negb (r_ok r)) eqn:Hok.
    + intros [= <-]. right; left. exists r. split; [reflexivity|].
      by apply negb_true_iff.
    + unfold parse_body, response_json.
      destruct (match r_content_type r with Some _ => _ | None => _ end);
        destruct (r_text r) as [raw|text]; cbn.
      * intros [= <-]. left; eauto.
      * destruct (JSON_parse text) as [j|]; cbn.
        -- destruct (opt_schema options j); [discriminate|].
           intros [= <-]. right; right; eauto.
        -- intros [= <-]. left; eauto.
      * intros [= <-]. left; eauto.
      * destruct (opt_schema options (parse_or_raw text)); [discriminate|].
        intros [= <-]. right; right; eauto.
  - revert Hf. unfold attempt_fetch, platform_fetch.
    destruct (_ || _); [intros [= <-] [= <-]; left; eauto|].
    destruct (w_settle w); try discriminate.
    intros [= <-] [= <-]. left; eauto.
  - discriminate.
Qed.

(** Validation runs only on a response whose status is in 200..299. *)
Lemma attempt_try_validates_ok w d :
  In d (validations (trace (try_ w))) ->
  exists r, w_settle w = Responds r /\ 200 <= r_status r <= 299.
Proof.
  rewrite attempt_try_spec.
  destruct (fetch_ w) as [r|e|] eqn:Hf; [|intros []|intros []].
  destruct (negb (r_ok r)) eqn:Hok; [intros []|].
  intros _. exists r. split; [by apply attempt_fetch_returned|].
  apply negb_false_iff in Hok. unfold r_ok in Hok.
  apply andb_true_iff in Hok as [H1 H2]. lia.
Qed.

Section Iteration.

Variable world : Z -> AttemptWorld.
Variable fuel : nat.
Variable counter : Z.

Local Abbreviation k := (counter + 1).
Local Abbreviation aborted := (signal_aborted (opt_signal options) (world k)).

Lemma loop_trace :
  trace (loop world (S fuel) counter) =
  trace (attempt_setup options) ++ trace (try_ (world k)) ++
  match outcome (try_ (world k)) with
  | Raised e =>
      trace (catch_ aborted k e) ++
      match outcome (catch_ aborted k e) with
      | Returned _ => trace (loop world fuel k)
      | _ => []
      end
  | _ => []
  end.
Proof.
  cbn [attempt_loop]. rewrite trace_bind, attempt_setup_spec.
  unfold outcome at 1. cbn [snd]. f_equal.
  rewrite trace_try_catch. f_equal.
  destruct (outcome (try_ (world k))); try reflexivity.
  apply trace_bind.
Qed.

Lemma loop_outcome :
  outcome (loop world (S fuel) counter) =
  match outcome (try_ (world k)) with
  | Raised e =>
      match outcome (catch_ aborted k e) with
      | Returned _ => outcome (loop world fuel k)
      | Raised e' => Raised e'
      | Pending => Pending
      end
  | other => other
  end.
Proof.
  cbn [attempt_loop]. rewrite outcome_bind, attempt_setup_spec.
  unfold outcome at 1. cbn [snd].
  rewrite outcome_try_catch.
  destruct (outcome (try_ (world k))); try reflexivity.
  apply outcome_bind.
Qed.

(** The attempt fails and is retried. *)
Lemma loop_retry e :
  outcome (try_ (world k)) = Raised e ->
  aborted = false ->
  (k <=? attempts retryConfig) && retry_candidate (isAbort e) e = true ->
  trace (loop world (S fuel) counter) =
    trace (attempt_setup options) ++ trace (try_ (world k)) ++
    [EvClearTimeout;
     EvWait (retry_delay retryConfig * backoff_multiplier retryConfig k)] ++
    trace (loop world fuel k) /\
  outcome (loop world (S fuel) counter) = outcome (loop world fuel k).
Proof.
  intros He Hab Hretry.
  rewrite loop_trace, loop_outcome, He, on_catch_spec, Hab, Hretry.
  split; reflexivity.
Qed.

(** The attempt fails and the failure is final. *)
Lemma loop_give_up e :
  outcome (try_ (world k)) = Raised e ->
  aborted = false ->
  (k <=? attempts retryConfig) && retry_candidate (isAbort e) e = false ->
  trace (loop world (S fuel) counter) =
    trace (attempt_setup options) ++ trace (try_ (world k)) ++ [EvClearTimeout] /\
  outcome (loop world (S fuel) counter) = Raised (TZod (final_error requestUrl e)).
Proof.
  intros He Hab Hretry.
  rewrite loop_trace, loop_outcome, He, on_catch_spec, Hab, Hretry.
  split; reflexivity.
Qed.

(** The attempt fails while the caller's signal is aborted. *)
Lemma loop_abort e :
  outcome (try_ (world k)) = Raised e ->
  aborted = true ->
  trace (loop world (S fuel) counter) =
    trace (attempt_setup options) ++ trace (try_ (world k)) ++ [EvClearTimeout] /\
  outcome (loop world (S fuel) counter) = Raised (TZod (abort_error requestUrl)).
Proof.
  intros He Hab.
  rewrite loop_trace, loop_outcome, He, on_catch_spec, Hab.
  split; reflexivity.
Qed.

(** The attempt succeeds. *)
Lemma loop_return v :
  outcome (try_ (world k)) = Returned v ->
  trace (loop world (S fuel) counter) =
    trace (attempt_setup options) ++ trace (try_ (world k)) /\
  outcome (loop world (S fuel) counter) = Returned v.
Proof.
  intros Hv. rewrite loop_trace, loop_outcome, Hv, app_nil_r.
  split; reflexivity.
Qed.

End Iteration.

(** *** Projections of traces *)

Lemma schedule_app t1 t2 : schedule (t1 ++ t2) = schedule t1 ++ schedule t2.
Proof. apply omap_app. Qed.

Lemma schedule_setup : schedule (trace (attempt_setup options)) = [].
Proof. rewrite attempt_setup_spec. destruct (opt_signal options); reflexivity. Qed.

Lemma waits_schedule t : waits t = sleeps (schedule t).
Proof.
  induction t as [|ev t IH]; [reflexivity|].
  destruct ev; cbn; try exact IH. unfold waits in IH. cbn in IH. by rewrite IH.
Qed.

Lemma fetches_schedule t : length (fetches t) = calls (schedule t).
Proof.
  induction t as [|ev t IH]; [reflexivity|].
  destruct ev; cbn; try exact IH. unfold calls, fetches in IH. cbn in IH. by rewrite IH.
Qed.

Lemma plan_calls first retries : calls (plan retryConfig first retries) = S retries.
Proof.
  revert first. induction retries as [|n IH]; intros first; [reflexivity|].
  cbn [plan]. unfold calls in *. cbn. by rewrite IH.
Qed.

Lemma plan_sleeps first retries :
  sleeps (plan retryConfig first retries) =
  map (fun k => retry_delay retryConfig * backoff_multiplier retryConfig k)
      (seqZ first (Z.of_nat retries)).
Proof.
  revert first. induction retries as [|n IH]; intros first; [reflexivity|].
  cbn [plan]. rewrite seqZ_cons by lia.
  replace (Z.pred (Z.of_nat (S n))) with (Z.of_nat n) by lia.
  unfold sleeps in *. cbn. by rewrite IH.
Qed.



Lemma configured_delay_le d :
  delay retryConfig = Some d -> 0 <= d -> d <= retry_delay retryConfig.
Proof.
  intros Hd Hpos. unfold retry_delay. rewrite Hd. destruct (d =? 0) eqn:E; lia.
Qed.

(** *** Runs in which every attempt fails retryably *)

Lemma final_error_cause w e :
  outcome (try_ w) = Raised e ->
  retry_candidate (isAbort e) e = true ->
  cause (final_error requestUrl e) = network \/
  cause (final_error requestUrl e) = timeout.
Proof.
  intros He Hc. destruct e as [raw|z].
  - unfold final_error. destruct (isAbort (TRaw raw)); [right|left]; reflexivity.
  - apply attempt_try_raised in He as [(raw & [=]) | [(r & [= ->] & _) | (r & iss & d & [= ->])]].
    + left; reflexivity.
    + discriminate Hc.
Qed.

Lemma loop_all_fail world retries :
  forall fuel counter,
    0 <= counter ->
    counter + Z.of_nat retries = attempts retryConfig ->
    (retries < fuel)%nat ->
    (forall k, counter < k <= attempts retryConfig + 1 ->
               fails_retryably options requestUrl headers requestBody (world k)) ->
    schedule (trace (loop world fuel counter)) = plan retryConfig (counter + 1) retries /\
    exists z, outcome (loop world fuel counter) = Raised (TZod z) /\
              (cause z = network \/ cause z = timeout).
Proof.
  induction retries as [|n IH]; intros fuel counter Hc Hsum Hfuel Hall;
    (destruct fuel as [|fuel]; [lia|]);
    destruct (Hall (counter + 1) ltac:(lia)) as (Hab & e & He & Hcand).
  - destruct (loop_give_up world fuel counter e He Hab) as [Ht Ho].
    { replace (counter + 1 <=? attempts retryConfig) with false by (symmetry; lia).
      reflexivity. }
    split.
    + rewrite Ht, !schedule_app, schedule_setup, attempt_try_schedule. reflexivity.
    + eexists. split; [exact Ho|]. eapply final_error_cause; eassumption.
  - destruct (loop_retry world fuel counter e He Hab) as [Ht Ho].
    { replace (counter + 1 <=? attempts retryConfig) with true by (symmetry; lia).
      exact Hcand. }
    destruct (IH fuel (counter + 1)) as [IHs IHo]; try lia.
    { intros k Hk. apply Hall. lia. }
    split.
    + rewrite Ht, !schedule_app, schedule_setup, attempt_try_schedule, IHs.
      reflexivity.
    + rewrite Ho. exact IHo.
Qed.

Lemma plan_alternates first retries :
  plan retryConfig first retries =
  Call :: flat_map (fun k => [Sleep (retry_delay retryConfig
                                     * backoff_multiplier retryConfig k); Call])
            (seqZ first (Z.of_nat retries)).
Proof.
  revert first. induction retries as [|n IH]; intros first; [reflexivity|].
  cbn [plan]. rewrite seqZ_cons by lia.
  replace (Z.pred (Z.of_nat (S n))) with (Z.of_nat n) by lia.
  cbn [flat_map app]. rewrite IH. reflexivity.
Qed.




(** *** Retry arithmetic *)

(** The arithmetic of lines 70-73 and 174-176: a bare number N is
    normalised to {attempts: N, delay: 1000, backoff: linear}; and whenever
    the catch block decides to retry with the attempt counter at k, it
    calls [wait] exactly once, with d * 2^(k-1) under exponential backoff
    and d * 1 otherwise, where d is the configured delay when that is a
    non-zero number and 1000 when the delay is absent or 0.  The factor
    depends on k alone. *)
Theorem retry_suspension aborted attempt error t :
  catch_ aborted attempt error = (t, Returned tt) ->
  waits t =
    [ match delay retryConfig with
      | Some d => if d =? 0 then 1000 else d
      | None => 1000
      end
      * match backoff retryConfig with
        | Some exponential => 2 ^ (attempt - 1)
        | _ => 1
        end ] /\
  schedule t = [Sleep (retry_delay retryConfig * backoff_multiplier retryConfig attempt)] /\
  attempt <= attempts retryConfig /\
  forall n,
    normalize_retry (Some (RetryNumber n)) =
      {| attempts := n; delay := Some 1000; backoff := Some linear |} /\
    retry_delay (normalize_retry (Some (RetryNumber n)))
      * backoff_multiplier (normalize_retry (Some (RetryNumber n))) attempt = 1000.
Proof.
  rewrite on_catch_spec. destruct aborted; [discriminate|].
  destruct (attempt <=? attempts retryConfig) eqn:Hk; [|discriminate].
  destruct (retry_candidate (isAbort error) error); [|discriminate].
  intros [= <-].
  split; [reflexivity|]. split; [reflexivity|]. split; [lia|].
  intros n. split; reflexivity.
Qed.

(** *** Failures that are not retried *)

Lemma is_failed_to_fetch_iff error :
  is_failed_to_fetch error = true <->
  exists name, error = TRaw (RawError true name "Failed to fetch").
Proof.
  split.
  - destruct error as [[[|] name msg|v]|z]; try discriminate.
    cbn. intros H. apply String.eqb_eq in H. subst. eauto.
  - intros [name ->]. reflexivity.
Qed.

(** Claim C10, as amended: only a TypeError whose message is exactly
    "Failed to fetch" counts as the connectivity failure.  While the
    caller's signal is not aborted, a thrown value that is not a
    ZodFetchError, not a cancellation and not that TypeError is never
    retried: the catch block clears the timer and raises a ZodFetchError
    of kind network whose data field is the thrown value and whose message
    is the error's message.  A thrown ZodFetchError whose status is absent
    or below 500 is not retried either and is raised again unchanged,
    with its own kind. *)
Theorem other_failures_not_retried attempt raw :
  isAbort (TRaw raw) = false ->
  is_failed_to_fetch (TRaw raw) = false ->
  (forall error,
     is_failed_to_fetch error = true <->
     exists name, error = TRaw (RawError true name "Failed to fetch")) /\
  catch_ false attempt (TRaw raw) =
    ([EvClearTimeout], Raised (TZod (network_error requestUrl raw))) /\
  cause (network_error requestUrl raw) = network /\
  data (network_error requestUrl raw) = Some (DataThrown raw) /\
  (forall z, is_server_error (TZod z) = false ->
             catch_ false attempt (TZod z) = ([EvClearTimeout], Raised (TZod z))).
Proof.
  intros Hab Hff.
  split; [exact is_failed_to_fetch_iff|].
  split.
  - rewrite on_catch_spec. unfold retry_candidate, final_error.
    rewrite Hab, Hff. cbn [orb is_server_error]. rewrite andb_false_r. reflexivity.
  - split; [reflexivity|]. split; [reflexivity|].
    intros z Hz. rewrite on_catch_spec. unfold retry_candidate.
    rewrite Hz. cbn [isAbort is_failed_to_fetch orb]. rewrite andb_false_r.
    reflexivity.
Qed.

(** *** Cancellation by the caller *)

(** When an attempt fails while the caller's signal is aborted, the catch
    block raises kind abort whatever the error, the attempt number and the
    retry policy, and does not suspend. *)
Lemma abort_wins attempt error :
  catch_ true attempt error =
  ([EvClearTimeout], Raised (TZod (abort_error requestUrl))).
Proof. rewrite on_catch_spec. reflexivity. Qed.

(** A caller who aborts a live signal while the call is pending makes the
    attempt fail, and the loop then raises kind abort after that one
    call. *)
Lemma abort_in_flight world fuel counter :
  opt_signal options = SignalLive ->
  w_caller_aborts_in_flight (world (counter + 1)) = true ->
  schedule (trace (loop world (S fuel) counter)) = [Call] /\
  outcome (loop world (S fuel) counter) = Raised (TZod (abort_error requestUrl)).
Proof.
  intros Hsig Hab.
  assert (outcome (try_ (world (counter + 1))) = Raised (TRaw AbortError)) as He.
  { rewrite attempt_try_spec. unfold attempt_fetch, listener_fires, aborts_while_pending.
    rewrite Hsig, Hab. reflexivity. }
  destruct (loop_abort world fuel counter _ He) as [Ht Ho].
  { unfold signal_aborted. rewrite Hsig, Hab. reflexivity. }
  split; [|exact Ho].
  rewrite Ht, !schedule_app, schedule_setup, attempt_try_schedule. reflexivity.
Qed.

(** *** What the loop can do in any world *)

(** Every error that leaves the loop is a [ZodFetchError]. *)
Lemma loop_raises_classified world fuel :
  forall counter e,
    outcome (loop world fuel counter) = Raised e -> exists z, e = TZod z.
Proof.
  induction fuel as [|fuel IH]; intros counter e; [discriminate|].
  rewrite loop_outcome.
  destruct (outcome (try_ (world (counter + 1)))) as [v|e0|]; try discriminate.
  rewrite on_catch_spec.
  destruct (signal_aborted _ _); [intros [= <-]; eauto|].
  destruct (_ && _); [apply IH|intros [= <-]; eauto].
Qed.

(** With one unit of fuel per allowed attempt the loop settles. *)
Lemma loop_settles world fuel :
  forall counter,
    (Z.to_nat (attempts retryConfig - counter) < fuel)%nat ->
    outcome (loop world fuel counter) <> Pending.
Proof.
  induction fuel as [|fuel IH]; intros counter Hfuel; [lia|].
  rewrite loop_outcome.
  pose proof (attempt_try_settles (world (counter + 1))) as Ht.
  destruct (outcome (try_ (world (counter + 1)))) as [v|e0|]; try congruence.
  rewrite on_catch_spec.
  destruct (signal_aborted _ _); [discriminate|].
  destruct (counter + 1 <=? attempts retryConfig) eqn:Hk; [|discriminate].
  destruct (retry_candidate _ _); [|discriminate].
  cbn. apply IH. lia.
Qed.

(** No run makes more calls than the first attempt plus the retry budget. *)
Lemma loop_call_bound world fuel :
  forall counter,
    (length (fetches (trace (loop world fuel counter)))
     <= S (Z.to_nat (attempts retryConfig - counter)))%nat.
Proof.
  induction fuel as [|fuel IH]; intros counter; [cbn; lia|].
  rewrite fetches_schedule, loop_trace, !schedule_app, schedule_setup,
    attempt_try_schedule.
  destruct (outcome (try_ (world (counter + 1)))) as [v|e0|]; try (cbn; lia).
  rewrite on_catch_spec.
  destruct (signal_aborted _ _); [cbn; lia|].
  destruct (counter + 1 <=? attempts retryConfig) eqn:Hk; [|cbn; lia].
  destruct (retry_candidate _ _); [|cbn; lia].
  specialize (IH (counter + 1)). rewrite fetches_schedule in IH.
  cbn [andb]. rewrite trace_pair, outcome_pair, schedule_app.
  set (l := schedule (trace (loop world fuel (counter + 1)))) in *.
  change (calls l <= S (Z.to_nat (attempts retryConfig - (counter + 1))))%nat in IH.
  change (S (calls l) <= S (Z.to_nat (attempts retryConfig - counter)))%nat.
  lia.
Qed.

(** Every call of the loop goes to the assembled URL and carries the signal
    of the attempt's own controller. *)
Lemma loop_requests world fuel :
  forall counter req,
    In req (fetches (trace (loop world fuel counter))) -> req = request.
Proof.
  induction fuel as [|fuel IH]; intros counter req; [intros []|].
  rewrite loop_trace. unfold fetches. rewrite !omap_app, !in_app_iff.
  intros [H|[H|H]].
  - rewrite attempt_setup_spec in H. destruct (opt_signal options); destruct H.
  - rewrite attempt_try_spec in H.
    destruct (fetch_ (world (counter + 1))) as [r|e|].
    + destruct (negb (r_ok r)); [|destruct (outcome (parse_body r))];
        destruct H as [<-|[]]; reflexivity.
    + destruct H as [<-|[]]; reflexivity.
    + destruct H as [<-|[]]; reflexivity.
  - destruct (outcome (try_ (world (counter + 1)))) as [v|e0|]; try destruct H.
    rewrite omap_app, in_app_iff, on_catch_spec in H.
    destruct (signal_aborted _ _); [destruct H as [[]|[]]|].
    destruct (_ && _); [|destruct H as [[]|[]]].
    destruct H as [[]|H]. exact (IH (counter + 1) req H).
Qed.

(** Every attempt starts by creating a controller and a timer. *)
Lemma loop_first_events world fuel counter :
  exists rest,
    trace (loop world (S fuel) counter) =
    EvNewController
      :: EvSetTimeout (default DEFAULT_TIMEOUT (opt_timeout options)) :: rest.
Proof. rewrite loop_trace, attempt_setup_spec. eexists. reflexivity. Qed.

(** In the executor, whatever reaches the schema comes from a response
    whose status is in 200..299. *)
Lemma loop_validates_ok world fuel :
  forall counter d,
    In d (validations (trace (loop world fuel counter))) ->
    exists k r, w_settle (world k) = Responds r /\ 200 <= r_status r <= 299.
Proof.
  induction fuel as [|fuel IH]; intros counter d; [intros []|].
  rewrite loop_trace. unfold validations. rewrite !omap_app, !in_app_iff.
  intros [H|[H|H]].
  - rewrite attempt_setup_spec in H. destruct (opt_signal options); destruct H.
  - exists (counter + 1). exact (attempt_try_validates_ok _ d H).
  - destruct (outcome (try_ (world (counter + 1)))) as [v|e0|]; try destruct H.
    rewrite omap_app, in_app_iff, on_catch_spec in H.
    destruct (signal_aborted _ _); [destruct H as [[]|[]]|].
    destruct (_ && _); [|destruct H as [[]|[]]].
    destruct H as [[]|H]. exact (IH (counter + 1) d H).
Qed.

End LoopFacts.

(** ** The executor as a whole *)

Section ExecutorFacts.

Context `{P : Platform}.

Lemma zFetch_unfold options world parsed :
  URL_new (url_toString (opt_url options)) = Some parsed ->
  zFetch options world =
  attempt_loop options (request_url parsed options)
    (fst (serializeBody JSON_stringify (opt_body options) (opt_headers options)))
    (snd (serializeBody JSON_stringify (opt_body options) (opt_headers options)))
    (normalize_retry (opt_retry options)) world
    (S (Z.to_nat (attempts (normalize_retry (opt_retry options))))) 0.
Proof.
  intros Hurl. unfold zFetch.
  destruct (serializeBody _ _ _) as [headers requestBody]. by rewrite Hurl.
Qed.

(** Every run of the executor settles. *)
Lemma zFetch_settles options world : outcome (zFetch options world) <> Pending.
Proof.
  destruct (URL_new (url_toString (opt_url options))) as [parsed|] eqn:Hurl.
  - rewrite (zFetch_unfold _ _ _ Hurl). apply loop_settles. lia.
  - unfold zFetch. destruct (serializeBody _ _ _). rewrite Hurl. discriminate.
Qed.

(** An error of the executor is a [ZodFetchError], except for the
    TypeError of a target that is not a URL, which is raised before the
    loop. *)
Lemma zFetch_raises options world e :
  outcome (zFetch options world) = Raised e ->
  (exists z, e = TZod z) \/
  (URL_new (url_toString (opt_url options)) = None /\
   e = TRaw (RawError true "TypeError" "Invalid URL")).
Proof.
  destruct (URL_new (url_toString (opt_url options))) as [parsed|] eqn:Hurl.
  - rewrite (zFetch_unfold _ _ _ Hurl). intros H. left.
    eapply loop_raises_classified, H.
  - unfold zFetch. destruct (serializeBody _ _ _). rewrite Hurl.
    intros [= <-]. by right.
Qed.

(** With a retry budget of N >= 0 no run makes more than N+1 calls. *)
Lemma zFetch_call_bound options world :
  0 <= attempts (normalize_retry (opt_retry options)) ->
  (length (fetches (trace (zFetch options world)))
   <= S (Z.to_nat (attempts (normalize_retry (opt_retry options)))))%nat.
Proof.
  intros HN.
  destruct (URL_new (url_toString (opt_url options))) as [parsed|] eqn:Hurl.
  - rewrite (zFetch_unfold _ _ _ Hurl).
    etransitivity; [apply loop_call_bound|].
    rewrite Z.sub_0_r. lia.
  - unfold zFetch. destruct (serializeBody _ _ _). rewrite Hurl. cbn. lia.
Qed.

(** The schema of the executor only sees bodies of responses whose status
    is in 200..299. *)
Lemma zFetch_validates_ok options world d :
  In d (validations (trace (zFetch options world))) ->
  exists k r, w_settle (world k) = Responds r /\ 200 <= r_status r <= 299.
Proof.
  destruct (URL_new (url_toString (opt_url options))) as [parsed|] eqn:Hurl.
  - rewrite (zFetch_unfold _ _ _ Hurl). apply loop_validates_ok.
  - unfold zFetch. destruct (serializeBody _ _ _). rewrite Hurl. intros [].
Qed.

(** Claim C5, as amended: when the first call is answered with a 2xx
    response whose parsed body the schema rejects, and the caller's signal
    is not aborted by the time the failure is handled, the executor raises the ZodFetchError of kind validation that
    carries the issue list and the parsed data, after exactly one network
    call, one schema run and no suspension -- whatever the retry option. *)
Theorem validation_failure_once options world parsed r d iss :
  URL_new (url_toString (opt_url options)) = Some parsed ->
  w_settle (world 1) = Responds r ->
  signal_aborted (opt_signal options) (world 1) = false ->
  r_ok r = true ->
  outcome (parse_body r) = Returned d ->
  opt_schema options d = Failure iss ->
  let run := zFetch options world in
  let error := validation_error (request_url parsed options) r iss d in
  outcome run = Raised (TZod error) /\
  cause error = validation /\
  issues error = Some iss /\
  data error = Some (DataJson d) /\
  length (fetches (trace run)) = 1%nat /\
  waits (trace run) = [] /\
  validations (trace run) = [d].
Proof.
  intros Hurl Hw Hab Hok Hd Hiss run error. subst run error.
  rewrite (zFetch_unfold _ _ _ Hurl).
  set (headers := fst _). set (requestBody := snd _).
  set (cfg := normalize_retry _). set (u := request_url parsed options).
  assert (Hfetch : attempt_fetch options (world 1) = Returned r).
  { unfold attempt_fetch, listener_fires, aborts_while_pending, platform_fetch.
    rewrite Hw. unfold signal_aborted in Hab.
    destruct (opt_signal options); try discriminate; [reflexivity|].
    apply orb_false_iff in Hab as [-> _]. reflexivity. }
  assert (Htry : attempt_try options u headers requestBody (world 1) =
                 ([EvFetch {| req_url := u; req_method := opt_method options;
                              req_headers := headers; req_body := requestBody;
                              req_signal := SigController |};
                   EvClearTimeout; EvValidate d],
                  Raised (TZod (validation_error u r iss d)))).
  { rewrite attempt_try_spec, Hfetch, Hok, Hd, Hiss. reflexivity. }
  destruct (loop_give_up options u headers requestBody cfg world
              (Z.to_nat (attempts cfg)) 0 (TZod (validation_error u r iss d)))
    as [Ht Ho].
  - change (0 + 1) with 1. by rewrite Htry.
  - exact Hab.
  - apply andb_false_r.
  - change (0 + 1) with 1 in Ht. rewrite Htry, attempt_setup_spec in Ht.
    rewrite Ho, Ht. cbn [trace fst final_error].
    destruct (opt_signal options); repeat split.
Qed.

End ExecutorFacts.

(** ** The stream variant against the executor *)

Section Contrast.

Context `{P : Platform}.

(** Claim C9: the stream variant issues exactly one call, to the URL as
    supplied and with the caller's own signal (never an internal
    controller's); it sets no timer and creates no controller; and the
    run does not depend on the searchParams option at all.  The attempt
    loop of the executor, in contrast, opens every attempt with a new
    controller and a timer, and sends every call to the URL it was given
    -- the one with the search parameters appended -- under the
    controller's signal. *)
Theorem stream_call_as_supplied options w :
  let t := trace (zFetch_stream options w) in
  map req_url (fetches t) = [url_toString (opt_url options)] /\
  map req_signal (fetches t) = [request_signal (opt_signal options)] /\
  timers t = [] /\
  controllers t = [] /\
  (forall sp, zFetch_stream (set_searchParams sp options) w = zFetch_stream options w) /\
  forall requestUrl headers requestBody retryConfig world fuel counter,
    let t' := trace (attempt_loop options requestUrl headers requestBody
                       retryConfig world (S fuel) counter) in
    (exists rest,
        t' = EvNewController
               :: EvSetTimeout (default DEFAULT_TIMEOUT (opt_timeout options)) :: rest) /\
    forall req, In req (fetches t') ->
                req_url req = requestUrl /\ req_signal req = SigController.
Proof.
  intros t. subst t.
  destruct (zFetch_stream_trace options w) as (req & Hurl & Hsig & ->).
  assert (Hq : forall l : list Event,
             fetches l = [] /\ timers l = [] /\ waits l = [] /\ controllers l = [] ->
             map req_url (fetches (EvFetch req :: l)) = [url_toString (opt_url options)] /\
             map req_signal (fetches (EvFetch req :: l)) = [request_signal (opt_signal options)] /\
             timers (EvFetch req :: l) = [] /\ controllers (EvFetch req :: l) = []).
  { intros l (H1 & H2 & _ & H4).
    change (fetches (EvFetch req :: l)) with (req :: fetches l).
    change (timers (EvFetch req :: l)) with (timers l).
    change (controllers (EvFetch req :: l)) with (controllers l).
    rewrite H1, H2, H4. simpl. rewrite Hurl, Hsig. repeat split. }
  assert (Hnil : fetches [] = [] /\ timers [] = [] /\ waits [] = [] /\ controllers [] = [])
    by repeat split.
  split; [|split; [|split; [|split; [|split]]]]; try reflexivity;
    [| | | |
     intros requestUrl headers requestBody retryConfig world fuel counter t';
     split; [apply loop_first_events|];
     intros req0 Hin; apply loop_requests in Hin; subst req0; split; reflexivity];
    (destruct (stream_fetch options w) as [r| |];
     [destruct (r_body r);
      [apply (Hq _ (fragment_events_quiet _ _))|apply (Hq [] Hnil)]
     |apply (Hq [] Hnil)|apply (Hq [] Hnil)]).
Qed.

End Contrast.

(** * Concrete runs *)

#[local] Existing Instance Demo.platform.

(** ** Body serialisation *)

Lemma serializeBody_spec_witness :
  let body := BodyObject (JObj [("title", JStr "Hello")]) in
  body_present body = true /\
  serializeBody Demo.stringify body ∅ =
    ({["content-type" := "application/json"]},
     Some (BodyString (Demo.stringify (JObj [("title", JStr "Hello")])))).
Proof.
  split; [reflexivity|].
  pose proof (serializeBody_spec Demo.stringify
                (BodyObject (JObj [("title", JStr "Hello")])) ∅ eq_refl) as [H _].
  destruct (H _ eq_refl) as (Hbody & Hset & _).
  rewrite (surjective_pairing (serializeBody _ _ _)), Hbody, (Hset eq_refl).
  reflexivity.
Defined.

(** Claim C6 fails as stated: a string is a present body and none of the
    four encoded kinds, yet it is sent as it is, not as JSON text, and no
    Content-Type is set although none was there. *)
Lemma serializeBody_string_counterexample :
  let body := BodyString "hello" in
  let r := serializeBody Demo.stringify body ∅ in
  body_present body = true /\
  already_encoded body = false /\
  snd r = Some (BodyString "hello") /\
  snd r <> Some (BodyString (Demo.stringify (JStr "hello"))) /\
  fst r !! "content-type" = None.
Proof. repeat split. discriminate. Qed.

(** ** The streaming variant *)

(** The example of the specification: two fragments the schema accepts
    and one that is not JSON. *)
Lemma stream_fragments_witness :
  let w := Demo.once (Responds (Demo.respond_stream 200
                        [Demo.count_text 1; "oops"; Demo.count_text 2])) in
  let run := zFetch_stream Demo.stream_example w in
  callbacks (trace run) = [JObj [("count", JNum 1)]; JObj [("count", JNum 2)]] /\
  outcome run = Returned tt.
Proof.
  pose proof (stream_fragments Demo.stream_example
                (Demo.once (Responds (Demo.respond_stream 200
                              [Demo.count_text 1; "oops"; Demo.count_text 2])))
                _ _ eq_refl eq_refl) as (Hcb & _ & _ & _ & Hout).
  split; [exact Hcb|exact Hout].
Defined.

(** Claim C7 fails as stated: under a schema that accepts strings, a
    fragment that does not parse as JSON is not dropped; the callback
    receives its raw text. *)
Lemma unparsable_fragment_counterexample :
  let options := Demo.get "https://api.example.com/stream" Demo.string_schema in
  let w := Demo.once (Responds (Demo.respond_stream 200 ["hello"])) in
  JSON_parse "hello" = None /\
  callbacks (trace (zFetch_stream options w)) = [JStr "hello"] /\
  callbacks (trace (zFetch_stream options w)) <> [].
Proof. repeat split. discriminate. Qed.

(** Claim C2 fails for the stream variant: it never looks at the status,
    so the body of a 500 response is validated and delivered. *)
Lemma zFetch_stream_validates_failure_status :
  let r := Demo.respond 500 (Demo.count_text 1) in
  let run := zFetch_stream Demo.stream_example (Demo.once (Responds r)) in
  r_ok r = false /\
  validations (trace run) = [JObj [("count", JNum 1)]] /\
  callbacks (trace run) = [JObj [("count", JNum 1)]] /\
  outcome run = Returned tt.
Proof. repeat split. Qed.

(** Claim C8 fails for the stream variant: a response without a body makes
    it raise a plain Error, not a ZodFetchError of kind unknown. *)
Lemma zFetch_stream_null_body_raw_error :
  let r := {| r_status := 204; r_statusText := "No Content";
              r_content_type := None; r_text := inr ""; r_body := None |} in
  let run := zFetch_stream Demo.stream_example (Demo.once (Responds r)) in
  outcome run = Raised (TRaw (RawError false "Error" "Response body is null")) /\
  forall z, outcome run <> Raised (TZod z).
Proof. split; [reflexivity|discriminate]. Qed.

(** ** The executor *)

(** Claim C1 fails on the code: with a signal that is already aborted when
    zFetch is called, the listener of line 83 never runs, the call is
    issued with the un-aborted signal of the fresh controller, and a
    successful answer is returned to the caller.  The same signal handed
    to fetch directly, as the stream variant does, rejects the call. *)
Lemma zFetch_ignores_aborted_signal :
  let options := Demo.with_signal SignalAborted Demo.users_example in
  let world := Demo.always (Responds (Demo.respond 200 (Demo.count_text 1))) in
  outcome (zFetch options world) = Returned (JObj [("count", JNum 1)]) /\
  length (fetches (trace (zFetch options world))) = 1%nat /\
  stream_fetch options (world 1) = Raised (TRaw AbortError).
Proof. repeat split. Qed.



Lemma retry_suspension_witness :
  let cfg := {| attempts := 3; delay := Some 100; backoff := Some exponential |} in
  let error := TRaw (RawError true "TypeError" "Failed to fetch") in
  on_catch "https://api.example.com/" cfg false 2 error =
    ([EvClearTimeout; EvWait 200], Returned tt) /\
  waits [EvClearTimeout; EvWait 200] = [100 * 2 ^ (2 - 1)].
Proof.
  split; [reflexivity|].
  exact (proj1 (retry_suspension "https://api.example.com/"
                  {| attempts := 3; delay := Some 100; backoff := Some exponential |}
                  false 2 (TRaw (RawError true "TypeError" "Failed to fetch"))
                  [EvClearTimeout; EvWait 200] eq_refl)).
Defined.

(** Claim C4 fails on the code: with a configured delay of 0 -- the value
    line 73 itself writes for a call without retry option -- the
    suspension before the retry is 1000 ms, not 0 * 1 ms, because line 174
    replaces a delay of 0 by 1000. *)
Lemma zero_delay_waits_1000 :
  let cfg := {| attempts := 1; delay := Some 0; backoff := Some linear |} in
  let run := zFetch (Demo.error500_example cfg) Demo.always500 in
  schedule (trace run) = [Call; Sleep 1000; Call] /\
  waits (trace run) = [1000] /\
  suspensions (trace run) = [1000] /\
  waits (trace run) <> [0 * 1] /\
  normalize_retry None = {| attempts := 0; delay := Some 0; backoff := Some linear |}.
Proof.
  split; [reflexivity|]. split; [reflexivity|]. split; [reflexivity|].
  split; [discriminate|reflexivity].
Qed.

Lemma validation_failure_once_witness :
  let cfg := {| attempts := 3; delay := Some 100; backoff := Some exponential |} in
  let options := Demo.with_retry (RetryObject cfg) Demo.users_example in
  let world := Demo.always (Responds (Demo.respond 200 "{}")) in
  let run := zFetch options world in
  (exists z, outcome run = Raised (TZod z) /\ cause z = validation /\
             issues z = Some ["count: expected number"] /\
             data z = Some (DataJson (JObj []))) /\
  length (fetches (trace run)) = 1%nat /\
  waits (trace run) = [] /\
  validations (trace run) = [JObj []].
Proof.
  pose proof (validation_failure_once
                (Demo.with_retry
                   (RetryObject {| attempts := 3; delay := Some 100;
                                   backoff := Some exponential |})
                   Demo.users_example)
                (Demo.always (Responds (Demo.respond 200 "{}")))
                ("https://api.example.com/users/1", [])
                (Demo.respond 200 "{}") (JObj []) ["count: expected number"]
                eq_refl eq_refl eq_refl eq_refl eq_refl eq_refl)
    as (Ho & Hc & Hi & Hd & Hn & Hw & Hv).
  split; [|split; [exact Hn|split; [exact Hw|exact Hv]]].
  eexists. split; [exact Ho|]. split; [exact Hc|]. split; [exact Hi|exact Hd].
Defined.

(** Claim C5 fails as stated: when the caller's signal is aborted by the
    time the failure is handled -- aborted after the response arrived, or
    aborted from the start -- a 2xx body that the schema rejects is raised
    as kind abort, not as kind validation. *)
Lemma validation_failure_aborted_counterexample :
  let r := Demo.respond 200 "{}" in
  let late := fun _ : Z => {| w_caller_aborts_in_flight := false;
                              w_settle := Responds r;
                              w_caller_aborts_late := true |} in
  let run := zFetch (Demo.with_signal SignalLive Demo.users_example) late in
  let run' := zFetch (Demo.with_signal SignalAborted Demo.users_example)
                (Demo.always (Responds r)) in
  r_ok r = true /\
  outcome (parse_body r) = Returned (JObj []) /\
  opt_schema Demo.users_example (JObj []) = Failure ["count: expected number"] /\
  validations (trace run) = [JObj []] /\
  outcome run = Raised (TZod (abort_error "https://api.example.com/users/1")) /\
  outcome run' = Raised (TZod (abort_error "https://api.example.com/users/1")) /\
  forall z, outcome run = Raised (TZod z) -> cause z <> validation.
Proof.
  repeat split. intros z [= <-]. discriminate.
Qed.

(** The message of a failed fetch under Node is "fetch failed": it is a
    TypeError but not the one the source retries. *)
Lemma other_failures_not_retried_witness :
  let cfg := {| attempts := 3; delay := Some 100; backoff := None |} in
  let raw := RawError true "TypeError" "fetch failed" in
  on_catch "https://api.example.com/" cfg false 1 (TRaw raw) =
    ([EvClearTimeout],
     Raised (TZod {| message := "fetch failed";
                     status := None; statusText := None;
                     url := Some "https://api.example.com/";
                     response := None; issues := None;
                     data := Some (DataThrown raw);
                     cause := network |})).
Proof.
  exact (proj1 (proj2 (other_failures_not_retried "https://api.example.com/"
                         {| attempts := 3; delay := Some 100; backoff := None |}
                         1 (RawError true "TypeError" "fetch failed")
                         eq_refl eq_refl))).
Defined.

(** Claim C10 fails as stated: the ZodFetchError of a rejected body is a
    thrown failure that is neither a cancellation nor a ZodFetchError with
    status >= 500, and it is raised again as it is -- kind validation, the
    parsed payload as data -- not as kind network with the error as data. *)
Lemma validation_failure_counterexample :
  let world := Demo.always (Responds (Demo.respond 200 "{}")) in
  let u := "https://api.example.com/users/1" in
  let thrown := TZod (validation_error u (Demo.respond 200 "{}")
                        ["count: expected number"] (JObj [])) in
  outcome (attempt_try Demo.users_example u ∅ None (world 1)) = Raised thrown /\
  isAbort thrown = false /\
  is_server_error thrown = false /\
  outcome (zFetch Demo.users_example world) = Raised thrown /\
  (forall z, outcome (zFetch Demo.users_example world) = Raised (TZod z) ->
             cause z <> network).
Proof.
  repeat split. intros z [= <-]. discriminate.
Qed.

(** * Further properties of the executor *)

Section MoreLoopFacts.

Context `{P : Platform}.

Variable options : ZodFetchOptions.
Variable requestUrl : string.
Variable headers : Headers.
Variable requestBody : option BodyValue.
Variable retryConfig : ZodFetchRetryOptions.

Local Abbreviation try_ := (attempt_try options requestUrl headers requestBody).
Local Abbreviation catch_ := (on_catch requestUrl retryConfig).
Local Abbreviation loop := (attempt_loop options requestUrl headers requestBody retryConfig).
Local Abbreviation fetch_ := (attempt_fetch options).
Local Abbreviation budget := (attempts retryConfig).
Local Abbreviation deadline := (default DEFAULT_TIMEOUT (opt_timeout options)).

(** When every attempt fails retryably, the error that leaves the loop
    is the one of the last attempt. *)
Lemma loop_exhausted world retries :
  forall fuel counter,
    0 <= counter ->
    counter + Z.of_nat retries = budget ->
    (retries < fuel)%nat ->
    (forall k, counter < k <= budget + 1 ->
               fails_retryably options requestUrl headers requestBody (world k)) ->
    forall e,
      outcome (try_ (world (budget + 1))) = Raised e ->
      outcome (loop world fuel counter) = Raised (TZod (final_error requestUrl e)).
Proof.
  induction retries as [|n IH]; intros fuel counter Hc Hsum Hfuel Hall e Hlast;
    (destruct fuel as [|fuel]; [lia|]);
    destruct (Hall (counter + 1) ltac:(lia)) as (Hab & e' & He & Hcand).
  - replace (budget + 1) with (counter + 1) in Hlast by lia.
    rewrite He in Hlast. injection Hlast as ->.
    apply (loop_give_up options requestUrl headers requestBody retryConfig
             world fuel counter e He Hab).
    replace (counter + 1 <=? budget) with false by (symmetry; lia). reflexivity.
  - destruct (loop_retry options requestUrl headers requestBody retryConfig
                world fuel counter e' He Hab) as [_ Ho].
    { replace (counter + 1 <=? budget) with true by (symmetry; lia). exact Hcand. }
    rewrite Ho. apply IH; try lia; [|exact Hlast].
    intros k Hk. apply Hall. lia.
Qed.

(** In every world the calls and suspensions of the loop have the shape
    call, suspension, call, ..., call, with at most as many suspensions as
    the budget allows. *)
Lemma loop_schedule world fuel :
  forall counter,
    (Z.to_nat (budget - counter) < fuel)%nat ->
    exists retries,
      (retries <= Z.to_nat (budget - counter))%nat /\
      schedule (trace (loop world fuel counter)) =
      plan retryConfig (counter + 1) retries.
Proof.
  induction fuel as [|fuel IH]; intros counter Hfuel; [lia|].
  rewrite loop_trace, !schedule_app, schedule_setup, attempt_try_schedule.
  destruct (outcome (try_ (world (counter + 1)))) as [v|e|];
    try (exists 0%nat; split; [lia|reflexivity]).
  rewrite on_catch_spec.
  destruct (signal_aborted _ _); [exists 0%nat; split; [lia|reflexivity]|].
  destruct (counter + 1 <=? budget) eqn:Hk;
    [|exists 0%nat; split; [lia|reflexivity]].
  destruct (retry_candidate _ _); [|exists 0%nat; split; [lia|reflexivity]].
  destruct (IH (counter + 1)) as (n & Hn & Hs); [lia|].
  exists (S n). split; [lia|].
  cbn [andb]. rewrite trace_pair, outcome_pair, schedule_app, Hs. reflexivity.
Qed.

Lemma timer_discipline_app t1 t2 live :
  timer_discipline (t1 ++ t2) live =
  match timer_discipline t1 live with
  | Some live' => timer_discipline t2 live'
  | None => None
  end.
Proof.
  revert live. induction t1 as [|ev t1 IH]; intros live; [reflexivity|].
  destruct ev; cbn [app timer_discipline]; try apply IH;
    destruct live; try reflexivity; apply IH.
Qed.

Lemma attempt_setup_timer :
  timer_discipline (trace (attempt_setup options)) false = Some true.
Proof. rewrite attempt_setup_spec. destruct (opt_signal options); reflexivity. Qed.

(** After the try block the timer is live exactly when the call itself
    failed. *)
Lemma attempt_try_timer w :
  timer_discipline (trace (try_ w)) true =
  Some match fetch_ w with Returned _ => false | _ => true end.
Proof.
  rewrite attempt_try_spec.
  destruct (fetch_ w) as [r|e|]; try reflexivity.
  destruct (negb (r_ok r)); [reflexivity|].
  destruct (outcome (parse_body r)); reflexivity.
Qed.

Lemma attempt_try_returned_fetch w v :
  outcome (try_ w) = Returned v -> exists r, fetch_ w = Returned r.
Proof.
  rewrite attempt_try_spec. destruct (fetch_ w) as [r|e|]; try discriminate. eauto.
Qed.

Lemma loop_timer_discipline world fuel :
  forall counter,
    timer_discipline (trace (loop world fuel counter)) false = Some false.
Proof.
  induction fuel as [|fuel IH]; intros counter; [reflexivity|].
  rewrite loop_trace, timer_discipline_app, attempt_setup_timer. cbv beta iota.
  rewrite timer_discipline_app, attempt_try_timer. cbv beta iota.
  pose proof (attempt_try_settles options requestUrl headers requestBody
                (world (counter + 1))) as Hsettles.
  destruct (outcome (try_ (world (counter + 1)))) as [v|e|] eqn:Ho;
    [|clear Hsettles|congruence].
  - apply attempt_try_returned_fetch in Ho as [r ->]. reflexivity.
  - rewrite on_catch_spec.
    destruct (signal_aborted _ _); [destruct (fetch_ _); reflexivity|].
    destruct (_ && _); [|destruct (fetch_ _); reflexivity].
    rewrite trace_pair, outcome_pair.
    change ([EvClearTimeout; EvWait ?x] ++ ?l) with (EvClearTimeout :: EvWait x :: l).
    destruct (fetch_ _); cbn [timer_discipline]; apply IH.
Qed.

Lemma timers_app t1 t2 : timers (t1 ++ t2) = timers t1 ++ timers t2.
Proof. apply omap_app. Qed.

Lemma fetches_app t1 t2 : fetches (t1 ++ t2) = fetches t1 ++ fetches t2.
Proof. apply omap_app. Qed.

Lemma attempt_try_quiet w :
  timers (trace (try_ w)) = [] /\ length (fetches (trace (try_ w))) = 1%nat.
Proof.
  rewrite attempt_try_spec.
  destruct (fetch_ w) as [r|e|]; try (split; reflexivity).
  destruct (negb (r_ok r)); [split; reflexivity|].
  destruct (outcome (parse_body r)); split; reflexivity.
Qed.

(** One timer per call, each set to the configured timeout. *)
Lemma loop_timers world fuel :
  forall counter,
    timers (trace (loop world fuel counter)) =
    replicate (length (fetches (trace (loop world fuel counter)))) deadline.
Proof.
  induction fuel as [|fuel IH]; intros counter; [reflexivity|].
  rewrite loop_trace, !timers_app, !fetches_app, !length_app.
  destruct (attempt_try_quiet (world (counter + 1))) as [-> ->].
  rewrite attempt_setup_spec, !trace_pair.
  assert (Hsetup : forall l : list Event,
             timers (EvNewController :: EvSetTimeout deadline :: l) = deadline :: timers l /\
             fetches (EvNewController :: EvSetTimeout deadline :: l) = fetches l)
    by (intros; split; reflexivity).
  assert (Hsig : timers (match opt_signal options with
                         | NoSignal => []
                         | _ => [EvAddAbortListener]
                         end) = [] /\
                 fetches (match opt_signal options with
                          | NoSignal => []
                          | _ => [EvAddAbortListener]
                          end) = [])
    by (destruct (opt_signal options); split; reflexivity).
  destruct (Hsetup (match opt_signal options with
                    | NoSignal => []
                    | _ => [EvAddAbortListener]
                    end)) as [-> ->].
  destruct Hsig as [-> ->]. cbn [length app Nat.add replicate]. f_equal.
  destruct (outcome (try_ (world (counter + 1)))) as [v|e|]; try reflexivity.
  rewrite on_catch_spec.
  destruct (signal_aborted _ _); [reflexivity|].
  destruct (_ && _); [|reflexivity].
  rewrite trace_pair, outcome_pair, timers_app, fetches_app, IH. reflexivity.
Qed.

(** The kinds of the errors that leave the loop. *)
Lemma loop_kinds world fuel :
  forall counter e,
    outcome (loop world fuel counter) = Raised e ->
    exists z, e = TZod z /\
              (cause z = network \/ cause z = timeout \/
               cause z = validation \/ cause z = abort).
Proof.
  induction fuel as [|fuel IH]; intros counter e; [discriminate|].
  rewrite loop_outcome.
  destruct (outcome (try_ (world (counter + 1)))) as [v|e0|] eqn:Ho; try discriminate.
  rewrite on_catch_spec.
  destruct (signal_aborted _ _); [intros [= <-]; eexists; split; [reflexivity|tauto]|].
  destruct (_ && _); [apply IH|].
  intros [= <-]. eexists; split; [reflexivity|].
  apply attempt_try_raised in Ho as [(raw & ->) | [(r & -> & _) | (r & iss & d & ->)]].
  - unfold final_error. destruct (isAbort (TRaw raw)); cbn; tauto.
  - cbn; tauto.
  - cbn; tauto.
Qed.

(** X6.  Every error that leaves the attempt loop is a ZodFetchError of
    kind network, timeout, validation or abort -- never unknown -- and
    carries the URL the loop calls. *)
Theorem attempt_loop_error_kinds world fuel counter e :
  outcome (loop world fuel counter) = Raised e ->
  exists z, e = TZod z /\
            url z = Some requestUrl /\
            (cause z = network \/ cause z = timeout \/
             cause z = validation \/ cause z = abort).
Proof.
  revert counter e.
  induction fuel as [|fuel IH]; intros counter e; [discriminate|].
  rewrite loop_outcome.
  destruct (outcome (try_ (world (counter + 1)))) as [v|e0|] eqn:Ho; try discriminate.
  rewrite on_catch_spec.
  destruct (signal_aborted _ _);
    [intros [= <-]; eexists; split; [reflexivity|split; [reflexivity|tauto]]|].
  destruct (_ && _); [apply IH|].
  intros [= <-]. eexists; split; [reflexivity|].
  apply attempt_try_raised in Ho as [(raw & ->) | [(r & -> & _) | (r & iss & d & ->)]].
  - unfold final_error. destruct (isAbort (TRaw raw)); split; try reflexivity; cbn; tauto.
  - split; [reflexivity|cbn; tauto].
  - split; [reflexivity|cbn; tauto].
Qed.

End MoreLoopFacts.

Section MoreExecutorFacts.

Context `{P : Platform}.

Local Abbreviation budget_of options := (attempts (normalize_retry (opt_retry options))).
Local Abbreviation sent_headers options :=
  (fst (serializeBody JSON_stringify (opt_body options) (opt_headers options))).
Local Abbreviation sent_body options :=
  (snd (serializeBody JSON_stringify (opt_body options) (opt_headers options))).

Lemma validations_setup options : validations (trace (attempt_setup options)) = [].
Proof. rewrite attempt_setup_spec. destruct (opt_signal options); reflexivity. Qed.

Lemma validations_app t1 t2 : validations (t1 ++ t2) = validations t1 ++ validations t2.
Proof. apply omap_app. Qed.

(** X1.  When the first call is answered with a 2xx response whose parsed
    body the schema accepts, the executor resolves with the validated
    value after that one call: one schema run, no suspension -- whatever
    the retry option, and whatever the state of the caller's signal. *)
Theorem first_answer_accepted options world parsed r d v :
  URL_new (url_toString (opt_url options)) = Some parsed ->
  attempt_fetch options (world 1) = Returned r ->
  r_ok r = true ->
  outcome (parse_body r) = Returned d ->
  opt_schema options d = Success v ->
  let run := zFetch options world in
  outcome run = Returned v /\
  schedule (trace run) = [Call] /\
  validations (trace run) = [d].
Proof.
  intros Hurl Hfetch Hok Hd Hv run. subst run.
  rewrite (zFetch_unfold _ _ _ Hurl).
  set (u := request_url parsed options). set (cfg := normalize_retry _).
  assert (Htry : attempt_try options u (sent_headers options) (sent_body options)
                   (world 1) =
                 ([EvFetch {| req_url := u; req_method := opt_method options;
                              req_headers := sent_headers options;
                              req_body := sent_body options;
                              req_signal := SigController |};
                   EvClearTimeout; EvValidate d], Returned v)).
  { rewrite attempt_try_spec, Hfetch, Hok, Hd, Hv. reflexivity. }
  destruct (loop_return options u (sent_headers options) (sent_body options) cfg
              world (Z.to_nat (attempts cfg)) 0 v) as [Ht Ho].
  { change (0 + 1) with 1. by rewrite Htry. }
  change (0 + 1) with 1 in Ht. rewrite Htry in Ht.
  split; [exact Ho|]. rewrite Ht, trace_pair. split.
  - by rewrite schedule_app, schedule_setup.
  - by rewrite validations_app, validations_setup.
Qed.


Lemma server_error_fails_retryably options u hs b w r :
  signal_aborted (opt_signal options) w = false ->
  attempt_fetch options w = Returned r ->
  500 <= r_status r ->
  outcome (attempt_try options u hs b w) = Raised (TZod (http_error u r)) /\
  fails_retryably options u hs b w.
Proof.
  intros Hab Hfetch Hst.
  assert (Hok : r_ok r = false).
  { unfold r_ok. replace (r_status r <=? 299) with false by (symmetry; lia).
    apply andb_false_r. }
  assert (Htry : outcome (attempt_try options u hs b w) = Raised (TZod (http_error u r))).
  { rewrite attempt_try_spec, Hfetch, Hok. reflexivity. }
  split; [exact Htry|]. split; [exact Hab|].
  eexists. split; [exact Htry|].
  unfold retry_candidate. cbn [isAbort is_failed_to_fetch orb is_server_error
                               http_error status].
  replace (500 <=? r_status r) with true by (symmetry; lia).
  replace (r_status r =? 0) with false by (symmetry; lia). reflexivity.
Qed.

(** X3.  With a budget of N >= 0 retries against a server that answers
    every attempt with a status of 500 or more, the executor makes N+1
    calls and then raises the error of the last response: its status, its
    status text, its body. *)
Theorem server_errors_exhaust options world parsed r_last :
  URL_new (url_toString (opt_url options)) = Some parsed ->
  0 <= budget_of options ->
  (forall k, 1 <= k <= budget_of options + 1 ->
             signal_aborted (opt_signal options) (world k) = false /\
             exists r, attempt_fetch options (world k) = Returned r /\
                       500 <= r_status r) ->
  attempt_fetch options (world (budget_of options + 1)) = Returned r_last ->
  let run := zFetch options world in
  outcome run = Raised (TZod (http_error (request_url parsed options) r_last)) /\
  length (fetches (trace run)) = S (Z.to_nat (budget_of options)).
Proof.
  intros Hurl HN Hall Hlast run. subst run.
  rewrite (zFetch_unfold _ _ _ Hurl).
  set (u := request_url parsed options).
  assert (Hfail : forall k, 0 < k <= budget_of options + 1 ->
             fails_retryably options u (sent_headers options) (sent_body options)
               (world k)).
  { intros k Hk. destruct (Hall k ltac:(lia)) as (Hab & r & Hf & Hst).
    by apply (server_error_fails_retryably options u _ _ (world k) r). }
  destruct (Hall (budget_of options + 1) ltac:(lia)) as (Hab & r & Hf & Hst).
  rewrite Hlast in Hf. injection Hf as <-.
  split.
  - apply (loop_exhausted options u (sent_headers options) (sent_body options)
             (normalize_retry (opt_retry options)) world
             (Z.to_nat (budget_of options))
             (S (Z.to_nat (budget_of options))) 0
             ltac:(lia) ltac:(lia) ltac:(lia) Hfail
             (TZod (http_error u r_last))).
    by apply server_error_fails_retryably.
  - destruct (loop_all_fail options u (sent_headers options) (sent_body options)
                (normalize_retry (opt_retry options)) world
                (Z.to_nat (budget_of options))
                (S (Z.to_nat (budget_of options))) 0) as [Hs _]; try lia.
    { exact Hfail. }
    by rewrite fetches_schedule, Hs, plan_calls.
Qed.

Lemma no_answer_fails_retryably options u hs b w :
  signal_aborted (opt_signal options) w = false ->
  w_settle w = NoAnswer ->
  outcome (attempt_try options u hs b w) = Raised (TRaw AbortError) /\
  fails_retryably options u hs b w.
Proof.
  intros Hab Hw.
  assert (Htry : outcome (attempt_try options u hs b w) = Raised (TRaw AbortError)).
  { rewrite attempt_try_spec. unfold attempt_fetch, platform_fetch.
    rewrite Hw, orb_true_r. reflexivity. }
  split; [exact Htry|]. split; [exact Hab|].
  eexists. split; [exact Htry|reflexivity].
Qed.

(** X4.  When no attempt is answered before its timer fires and the
    caller does not abort, the executor uses its whole budget of N >= 0
    retries -- N+1 calls, each under a timer of the configured timeout
    (10000 ms by default) -- and then raises kind timeout. *)
Theorem timeouts_exhaust options world parsed :
  URL_new (url_toString (opt_url options)) = Some parsed ->
  0 <= budget_of options ->
  (forall k, 1 <= k <= budget_of options + 1 ->
             signal_aborted (opt_signal options) (world k) = false /\
             w_settle (world k) = NoAnswer) ->
  let run := zFetch options world in
  outcome run = Raised (TZod (timeout_error (request_url parsed options))) /\
  length (fetches (trace run)) = S (Z.to_nat (budget_of options)) /\
  timers (trace run) =
    replicate (S (Z.to_nat (budget_of options)))
      (default DEFAULT_TIMEOUT (opt_timeout options)).
Proof.
  intros Hurl HN Hall run. subst run.
  rewrite (zFetch_unfold _ _ _ Hurl).
  set (u := request_url parsed options).
  assert (Hfail : forall k, 0 < k <= budget_of options + 1 ->
             fails_retryably options u (sent_headers options) (sent_body options)
               (world k)).
  { intros k Hk. destruct (Hall k ltac:(lia)) as (Hab & Hw).
    by apply no_answer_fails_retryably. }
  destruct (Hall (budget_of options + 1) ltac:(lia)) as (Hab & Hw).
  assert (Hn : length (fetches (trace
                 (attempt_loop options u (sent_headers options) (sent_body options)
                    (normalize_retry (opt_retry options)) world
                    (S (Z.to_nat (budget_of options))) 0))) =
               S (Z.to_nat (budget_of options))).
  { destruct (loop_all_fail options u (sent_headers options) (sent_body options)
                (normalize_retry (opt_retry options)) world
                (Z.to_nat (budget_of options))
                (S (Z.to_nat (budget_of options))) 0) as [Hs _]; try lia.
    { exact Hfail. }
    by rewrite fetches_schedule, Hs, plan_calls. }
  split; [|split; [exact Hn|]].
  - apply (loop_exhausted options u (sent_headers options) (sent_body options)
             (normalize_retry (opt_retry options)) world
             (Z.to_nat (budget_of options))
             (S (Z.to_nat (budget_of options))) 0
             ltac:(lia) ltac:(lia) ltac:(lia) Hfail (TRaw AbortError)).
    by apply no_answer_fails_retryably.
  - by rewrite loop_timers, Hn.
Qed.

(** X5.  While the caller's signal is not aborted, a 2xx response that
    declares a JSON content type but whose body is not JSON never reaches
    the schema: the executor raises kind network, with the SyntaxError of
    the parser as data and its message as message, after one call and
    without a retry, whatever the retry option. *)
Theorem declared_json_unparsable options world parsed r contentType text :
  URL_new (url_toString (opt_url options)) = Some parsed ->
  attempt_fetch options (world 1) = Returned r ->
  signal_aborted (opt_signal options) (world 1) = false ->
  r_ok r = true ->
  r_content_type r = Some contentType ->
  includes "application/json" contentType = true ->
  r_text r = inr text ->
  JSON_parse text = None ->
  let run := zFetch options world in
  let raw := RawError false "SyntaxError" (JSON_parse_message text) in
  exists z,
    outcome run = Raised (TZod z) /\
    cause z = network /\
    data z = Some (DataThrown raw) /\
    message z = JSON_parse_message text /\
    status z = None /\
    schedule (trace run) = [Call] /\
    validations (trace run) = [].
Proof.
  intros Hurl Hfetch Hab Hok Hct Hinc Htext Hparse run raw. subst run.
  rewrite (zFetch_unfold _ _ _ Hurl).
  set (u := request_url parsed options). set (cfg := normalize_retry _).
  assert (Hbody : outcome (parse_body r) = Raised (TRaw raw)).
  { unfold parse_body, response_json. rewrite Hct, Hinc, Htext, Hparse.
    destruct contentType; [discriminate Hinc|reflexivity]. }
  assert (Htry : attempt_try options u (sent_headers options) (sent_body options)
                   (world 1) =
                 ([EvFetch {| req_url := u; req_method := opt_method options;
                              req_headers := sent_headers options;
                              req_body := sent_body options;
                              req_signal := SigController |};
                   EvClearTimeout], Raised (TRaw raw))).
  { rewrite attempt_try_spec, Hfetch, Hok, Hbody. reflexivity. }
  destruct (loop_give_up options u (sent_headers options) (sent_body options) cfg
              world (Z.to_nat (attempts cfg)) 0 (TRaw raw))
    as [Ht Ho].
  - change (0 + 1) with 1. by rewrite Htry.
  - exact Hab.
  - apply andb_false_r.
  - change (0 + 1) with 1 in Ht. rewrite Htry in Ht.
    exists (network_error u raw).
    split; [exact Ho|]. do 4 (split; [reflexivity|]).
    rewrite Ht, trace_pair. split.
    + by rewrite !schedule_app, schedule_setup.
    + by rewrite !validations_app, validations_setup.
Qed.

(** X7.  In every world the calls and suspensions of a run alternate --
    call, wait, call, ..., call -- with at most as many waits as the retry
    budget; the wait after attempt k (counted from 1) is called with
    d * 2^(k-1) under exponential backoff and with d otherwise, where d is
    the configured delay, or 1000 when that is absent or 0. *)
Theorem zFetch_schedule options world parsed :
  URL_new (url_toString (opt_url options)) = Some parsed ->
  let cfg := normalize_retry (opt_retry options) in
  let d := match delay cfg with
           | Some d => if d =? 0 then 1000 else d
           | None => 1000
           end in
  let m := fun k : Z => match backoff cfg with
                        | Some exponential => 2 ^ (k - 1)
                        | _ => 1
                        end in
  let run := zFetch options world in
  exists retries,
    (retries <= Z.to_nat (attempts cfg))%nat /\
    schedule (trace run) =
      Call :: flat_map (fun k => [Sleep (d * m k); Call])
                (seqZ 1 (Z.of_nat retries)) /\
    length (fetches (trace run)) = S retries /\
    waits (trace run) = map (fun k => d * m k) (seqZ 1 (Z.of_nat retries)).
Proof.
  intros Hurl cfg d m run. subst run.
  rewrite (zFetch_unfold _ _ _ Hurl). fold cfg.
  destruct (loop_schedule options (request_url parsed options)
              (sent_headers options) (sent_body options) cfg world
              (S (Z.to_nat (attempts cfg))) 0) as (n & Hn & Hs); [lia|].
  exists n. rewrite Z.sub_0_r in Hn. change (0 + 1) with 1 in Hs.
  split; [exact Hn|].
  split; [rewrite Hs; apply plan_alternates|].
  split; [by rewrite fetches_schedule, Hs, plan_calls|].
  rewrite waits_schedule, Hs. apply plan_sleeps.
Qed.

(** X8.  Timers are handled the same way on every path: a timer is set
    only when none is live, every call is made under a live timer, the
    executor never suspends with a live timer and never ends with one;
    there is one timer per call, set to the configured timeout (10000 ms
    by default). *)
Theorem zFetch_timer_discipline options world :
  let t := trace (zFetch options world) in
  timer_discipline t false = Some false /\
  timers t = replicate (length (fetches t))
               (default DEFAULT_TIMEOUT (opt_timeout options)).
Proof.
  intros t. subst t.
  destruct (URL_new (url_toString (opt_url options))) as [parsed|] eqn:Hurl.
  - rewrite (zFetch_unfold _ _ _ Hurl).
    split; [apply loop_timer_discipline|apply loop_timers].
  - unfold zFetch. destruct (serializeBody _ _ _). rewrite Hurl. split; reflexivity.
Qed.

Lemma append_searchParams_foldl entries (u : URL) :
  append_searchParams u entries =
  foldl (fun acc kv => URL_append acc (fst kv) (snd kv)) u (defined_params entries).
Proof.
  revert u. induction entries as [|[key [value|]] l IH]; intros u;
    [reflexivity| |]; cbn; apply IH.
Qed.

Lemma request_url_foldl parsed options :
  request_url parsed options =
  URL_href (foldl (fun acc kv => URL_append acc (fst kv) (snd kv)) parsed
              (defined_params (default [] (opt_searchParams options)))).
Proof.
  unfold request_url. destruct (opt_searchParams options) as [entries|];
    [by rewrite append_searchParams_foldl|reflexivity].
Qed.

Lemma defined_params_cases entries :
  defined_params entries =
  omap (fun kv => match snd kv with
                  | Some (PString s) => Some (fst kv, s)
                  | Some (PNumber n) => Some (fst kv, String_of_Z n)
                  | Some (PBool true) => Some (fst kv, "true")
                  | Some (PBool false) => Some (fst kv, "false")
                  | None => None
                  end) entries.
Proof.
  induction entries as [|[key [[x|n|[|]]|]] l IH]; [reflexivity|..];
    unfold defined_params in *; cbn; by rewrite IH.
Qed.

(** X9.  Every call of a run is the same request: the method of the
    options, the URL with the defined search parameters appended, the
    signal of the attempt's controller.  For a structured body it carries
    the JSON text under a Content-Type that is the caller's own when there
    is one and application/json otherwise, with every other header as the
    caller gave it; for any other body it carries the caller's headers and
    the body as it is (none for null and undefined). *)
Theorem zFetch_requests options world parsed req :
  URL_new (url_toString (opt_url options)) = Some parsed ->
  In req (fetches (trace (zFetch options world))) ->
  req_url req =
    URL_href (foldl (fun u kv => URL_append u (fst kv) (snd kv)) parsed
                (defined_params (default [] (opt_searchParams options)))) /\
  req_method req = opt_method options /\
  req_signal req = SigController /\
  (forall v, opt_body options = BodyObject v ->
     req_body req = Some (BodyString (JSON_stringify v)) /\
     req_headers req !! "content-type" =
       Some (default "application/json" (opt_headers options !! "content-type")) /\
     forall name, name <> "content-type" ->
                  req_headers req !! name = opt_headers options !! name) /\
  (is_structured (opt_body options) = false ->
     req_headers req = opt_headers options /\
     req_body req = if body_present (opt_body options)
                    then Some (opt_body options) else None) /\
  forall req', In req' (fetches (trace (zFetch options world))) -> req' = req.
Proof.
  intros Hurl Hin.
  rewrite (zFetch_unfold _ _ _ Hurl) in *.
  apply loop_requests in Hin. subst req.
  cbn [req_url req_method req_signal req_body req_headers].
  split; [apply request_url_foldl|]. split; [reflexivity|]. split; [reflexivity|].
  split; [|split].
  - intros v Hbody. rewrite Hbody. unfold serializeBody, Headers_has, Headers_set.
    rewrite lower_content_type.
    destruct (opt_headers options !! "content-type") as [x|] eqn:Hct;
      cbn [negb fst snd default from_option id].
    + split; [reflexivity|]. split; [exact Hct|reflexivity].
    + split; [reflexivity|]. split; [apply lookup_insert_eq|].
      intros name Hne. apply lookup_insert_ne. congruence.
  - intros Hs. destruct (opt_body options); try discriminate Hs; split; reflexivity.
  - intros req' Hin'. by apply loop_requests in Hin'.
Qed.

(** X10.  The URL of every call is the parsed target with the search
    parameters appended in the order of the mapping: a string as it is, a
    number that is a safe integer in decimal digits, a boolean as true or
    false; an entry whose value is undefined is skipped, so a mapping
    without defined values leaves the URL as it is. *)
Theorem zFetch_request_url options world parsed req :
  URL_new (url_toString (opt_url options)) = Some parsed ->
  let entries := default [] (opt_searchParams options) in
  safe_params entries = true ->
  In req (fetches (trace (zFetch options world))) ->
  req_url req =
    URL_href
      (foldl (fun u kv => URL_append u (fst kv) (snd kv)) parsed
         (omap (fun kv => match snd kv with
                          | Some (PString s) => Some (fst kv, s)
                          | Some (PNumber n) => Some (fst kv, String_of_Z n)
                          | Some (PBool true) => Some (fst kv, "true")
                          | Some (PBool false) => Some (fst kv, "false")
                          | None => None
                          end) entries)) /\
  ((forall kv, In kv entries -> snd kv = None) -> req_url req = URL_href parsed).
Proof.
  intros Hurl entries _ Hin.
  rewrite (zFetch_unfold _ _ _ Hurl) in Hin.
  apply loop_requests in Hin. subst req. cbn [req_url].
  rewrite request_url_foldl. fold entries. rewrite defined_params_cases.
  split; [reflexivity|].
  intros Hnone.
  assert (E : forall l : list (string * option ParamValue),
             (forall kv, In kv l -> snd kv = None) ->
             omap (fun kv => match snd kv with
                             | Some (PString s) => Some (fst kv, s)
                             | Some (PNumber n) => Some (fst kv, String_of_Z n)
                             | Some (PBool true) => Some (fst kv, "true")
                             | Some (PBool false) => Some (fst kv, "false")
                             | None => None
                             end) l = []).
  { induction l as [|[key value] l IH]; intros H; [reflexivity|].
    pose proof (H (key, value) (or_introl eq_refl)) as Hv. cbn in Hv. subst value.
    cbn. apply IH. intros kv' Hkv'. apply H. by right. }
  by rewrite (E entries Hnone).
Qed.

(** X11.  A caller who aborts a live signal while the first call is
    pending gets kind abort after that one call, whatever the retry
    option. *)
Theorem zFetch_abort_in_flight options world parsed :
  URL_new (url_toString (opt_url options)) = Some parsed ->
  opt_signal options = SignalLive ->
  w_caller_aborts_in_flight (world 1) = true ->
  let run := zFetch options world in
  outcome run = Raised (TZod (abort_error (request_url parsed options))) /\
  schedule (trace run) = [Call] /\
  validations (trace run) = [].
Proof.
  intros Hurl Hsig Hab run. subst run.
  rewrite (zFetch_unfold _ _ _ Hurl).
  set (u := request_url parsed options). set (cfg := normalize_retry _).
  assert (Htry : attempt_try options u (sent_headers options) (sent_body options)
                   (world 1) =
                 ([EvFetch {| req_url := u; req_method := opt_method options;
                              req_headers := sent_headers options;
                              req_body := sent_body options;
                              req_signal := SigController |}],
                  Raised (TRaw AbortError))).
  { rewrite attempt_try_spec. unfold attempt_fetch, listener_fires, aborts_while_pending.
    rewrite Hsig, Hab. reflexivity. }
  destruct (loop_abort options u (sent_headers options) (sent_body options) cfg
              world (Z.to_nat (attempts cfg)) 0 (TRaw AbortError)) as [Ht Ho].
  - change (0 + 1) with 1. by rewrite Htry.
  - unfold signal_aborted. change (0 + 1) with 1. by rewrite Hsig, Hab.
  - change (0 + 1) with 1 in Ht. rewrite Htry in Ht.
    split; [exact Ho|]. rewrite Ht, trace_pair. split.
    + by rewrite !schedule_app, schedule_setup.
    + by rewrite !validations_app, validations_setup.
Qed.

(** X12.  Without a retry budget -- the retry option omitted, 0 or
    negative -- a run makes exactly one call and never suspends, however
    that call ends. *)
Theorem zFetch_single_call_without_budget options world parsed :
  URL_new (url_toString (opt_url options)) = Some parsed ->
  attempts (normalize_retry (opt_retry options)) <= 0 ->
  schedule (trace (zFetch options world)) = [Call] /\
  waits (trace (zFetch options world)) = [].
Proof.
  intros Hurl HN.
  rewrite (zFetch_unfold _ _ _ Hurl).
  destruct (loop_schedule options (request_url parsed options)
              (sent_headers options) (sent_body options)
              (normalize_retry (opt_retry options)) world
              (S (Z.to_nat (budget_of options))) 0) as (n & Hn & Hs); [lia|].
  assert (n = 0%nat) as -> by lia.
  split; [exact Hs|]. by rewrite waits_schedule, Hs.
Qed.

(** X13.  Whatever the executor hands to the schema is the body of a
    response of the same run whose status is in 200..299. *)
Theorem executor_validates_success_only options world d :
  In d (validations (trace (zFetch options world))) ->
  exists k r,
    w_settle (world k) = Responds r /\ 200 <= r_status r <= 299 /\
    outcome (parse_body r) = Returned d.
Proof.
  destruct (URL_new (url_toString (opt_url options))) as [parsed|] eqn:Hurl;
    [|unfold zFetch; destruct (serializeBody _ _ _); rewrite Hurl; intros []].
  rewrite (zFetch_unfold _ _ _ Hurl).
  set (u := request_url parsed options). set (cfg := normalize_retry _).
  generalize (S (Z.to_nat (attempts cfg))) as fuel. generalize 0 as counter.
  intros counter fuel. revert counter.
  induction fuel as [|fuel IH]; intros counter; [intros []|].
  rewrite loop_trace, !validations_app, validations_setup, !in_app_iff.
  intros [[]|[H|H]].
  - exists (counter + 1).
    rewrite attempt_try_spec in H.
    destruct (attempt_fetch options (world (counter + 1))) as [r|e|] eqn:Hf;
      [|destruct H|destruct H].
    destruct (negb (r_ok r)) eqn:Hok; [destruct H|].
    exists r. split; [by apply (attempt_fetch_returned options)|].
    apply negb_false_iff in Hok. unfold r_ok in Hok.
    apply andb_true_iff in Hok as [H1 H2]. split; [lia|].
    destruct (outcome (parse_body r)) as [d'|e|]; [|destruct H|destruct H].
    destruct H as [<-|[]]. reflexivity.
  - destruct (outcome (attempt_try _ _ _ _ _)) as [v|e0|]; try destruct H.
    rewrite validations_app, in_app_iff, on_catch_spec in H.
    destruct (signal_aborted _ _); [destruct H as [[]|[]]|].
    destruct (_ && _); [|destruct H as [[]|[]]].
    destruct H as [[]|H]. exact (IH (counter + 1) H).
Qed.

End MoreExecutorFacts.

(** * The stream and upload variants, further *)

Section MoreVariantFacts.

Context `{P : Platform}.

(** X14.  The upload variant runs the schema only on the response text
    of a completed request whose status is in 200..299; a completed
    request with any other status raises kind network with that status
    and status text, and the schema does not run. *)
Theorem upload_validates_success_only options w :
  (forall d, In d (validations (trace (zFetch_upload options w))) ->
     exists st stt txt,
       w = XhrLoads st stt txt /\ 200 <= st < 300 /\ d = parse_or_raw txt) /\
  (forall st stt txt,
     w = XhrLoads st stt txt -> ~ 200 <= st < 300 ->
     validations (trace (zFetch_upload options w)) = [] /\
     exists z, outcome (zFetch_upload options w) = Raised (TZod z) /\
               cause z = network /\ status z = Some st /\ statusText z = Some stt).
Proof.
  unfold zFetch_upload. rewrite bind_emit, trace_pair, outcome_pair. cbv beta.
  split.
  - intros d. destruct w as [st stt txt| |]; [|intros []|intros []].
    destruct ((200 <=? st) && (st <? 300)) eqn:Hst; [|intros []].
    rewrite bind_emit, trace_pair.
    change (validations (EvXhrSend ?a :: EvValidate ?x :: ?l))
      with (x :: validations l).
    intros [<-|Hin].
    + exists st, stt, txt. apply andb_true_iff in Hst as [H1 H2].
      split; [reflexivity|]. split; [lia|reflexivity].
    + destruct (up_schema options (parse_or_raw txt)); destruct Hin.
  - intros st stt txt -> Hst.
    replace ((200 <=? st) && (st <? 300)) with false.
    + split; [reflexivity|]. eexists. split; [reflexivity|]. repeat split.
    + symmetry. apply andb_false_iff.
      destruct (Z.leb_spec 200 st); [right; lia|left; reflexivity].
Qed.

(** X15.  Once the request is sent, whatever the load and the error
    handler of the upload variant reject the promise with is a
    ZodFetchError that carries the target: kind validation when the schema
    rejects the text of a 2xx response, kind network with the status for
    any other status, kind network without status for a transport
    error. *)
Theorem upload_error_kinds options w e :
  outcome (zFetch_upload options w) = Raised e ->
  exists z, e = TZod z /\
    url z = Some (url_toString (up_url options)) /\
    match w with
    | XhrLoads st stt txt =>
        if (200 <=? st) && (st <? 300)
        then cause z = validation /\ data z = Some (DataJson (parse_or_raw txt))
        else cause z = network /\ status z = Some st
    | XhrErrors => cause z = network /\ status z = None
    | XhrSilent => False
    end.
Proof.
  unfold zFetch_upload. rewrite bind_emit, outcome_pair. cbv beta.
  destruct w as [st stt txt| |].
  - destruct ((200 <=? st) && (st <? 300)).
    + rewrite bind_emit, outcome_pair. cbv beta.
      destruct (up_schema options (parse_or_raw txt)); [discriminate|].
      intros [= <-]. eexists. repeat split.
    + intros [= <-]. eexists. repeat split.
  - intros [= <-]. eexists. repeat split.
  - discriminate.
Qed.


End MoreVariantFacts.

(** * The client builder *)

Lemma string_append_assoc (a b c : string) :
  ((a ++ b) ++ c = a ++ (b ++ c))%string.
Proof.
  induction a as [|x a IH]; [reflexivity|].
  change (String x ((a ++ b) ++ c) = String x (a ++ (b ++ c)))%string.
  by rewrite IH.
Qed.

Lemma endsWith_slash_append (b : string) : endsWith "/" (b ++ "/") = true.
Proof.
  induction b as [|x b IH]; [reflexivity|].
  change (String.eqb (String x (b ++ "/")) "/" || endsWith "/" (b ++ "/") = true).
  rewrite IH. apply orb_true_r.
Qed.

Lemma append_slash_nonempty (b : string) : String.eqb (b ++ "/") "" = false.
Proof. destruct b; reflexivity. Qed.

(** X17.  [resolveUrl] returns the target as it is when the client has no
    base URL (none, or the empty string), when the target is a URL
    object, and when the target starts with "http" -- be it an absolute
    URL or a relative path such as "httpbin/get". *)
Theorem resolveUrl_unchanged baseURL s :
  baseURL = None \/ baseURL = Some "" \/ String.prefix "http" s = true ->
  resolveUrl baseURL (UrlString s) = s /\
  forall href, resolveUrl baseURL (UrlObject href) = href.
Proof.
  intros H. split; [|reflexivity].
  destruct H as [->|[->|H]]; [reflexivity|reflexivity|].
  unfold resolveUrl. destruct baseURL as [b|]; [|reflexivity].
  rewrite H, andb_false_r. reflexivity.
Qed.

(** X18.  For a non-empty base URL that does not end with a slash and a
    path that starts neither with a slash nor with http, the base with or
    without one trailing slash and the path with or without one leading
    slash are joined with exactly one slash between them; of two leading
    slashes only the first is dropped. *)
Theorem resolveUrl_join base path :
  base <> "" ->
  endsWith "/" base = false ->
  String.prefix "/" path = false ->
  String.prefix "http" path = false ->
  let joined := (base ++ "/" ++ path)%string in
  resolveUrl (Some base) (UrlString path) = joined /\
  resolveUrl (Some (base ++ "/")%string) (UrlString path) = joined /\
  resolveUrl (Some base) (UrlString ("/" ++ path)%string) = joined /\
  resolveUrl (Some (base ++ "/")%string) (UrlString ("/" ++ path)%string) = joined /\
  resolveUrl (Some base) (UrlString ("//" ++ path)%string)
  = (base ++ "//" ++ path)%string.
Proof.
  intros Hne Hend Hslash Hhttp joined. subst joined.
  assert (Hb : String.eqb base "" = false) by (by apply String.eqb_neq).
  assert (H5 : resolveUrl (Some base) (UrlString ("//" ++ path)%string)
               = (base ++ "//" ++ path)%string).
  { unfold resolveUrl. rewrite Hb, Hend.
    assert (H1 : String.prefix "http" ("//" ++ path) = false) by reflexivity.
    assert (H2 : String.prefix "/" ("//" ++ path) = true) by reflexivity.
    rewrite H1, H2. cbn [negb andb].
    change (slice1 ("//" ++ path)) with ("/" ++ path)%string.
    rewrite string_append_assoc. reflexivity. }
  revert H5. unfold resolveUrl.
  rewrite Hb, Hend, Hslash, Hhttp, append_slash_nonempty, endsWith_slash_append.
  cbn [negb andb]. rewrite string_append_assoc.
  assert (H1 : String.prefix "http" ("/" ++ path) = false) by reflexivity.
  assert (H2 : String.prefix "/" ("/" ++ path) = true)
    by (apply prefix_correct; destruct path; reflexivity).
  rewrite H1, H2. cbn [negb].
  change (slice1 ("/" ++ path)) with path. rewrite string_append_assoc.
  intros H5. do 4 (split; [reflexivity|]). exact H5.
Qed.

Lemma ascii_lower_idempotent c : ascii_lower (ascii_lower c) = ascii_lower c.
Proof. destruct c as [[] [] [] [] [] [] [] []]; reflexivity. Qed.

Lemma lower_idempotent s : lower (lower s) = lower s.
Proof.
  induction s as [|c s IH]; [reflexivity|].
  cbn. by rewrite ascii_lower_idempotent, IH.
Qed.

Lemma Headers_append_lowercase name value h :
  lowercase_names h -> lowercase_names (Headers_append name value h).
Proof.
  intros Hh k. unfold Headers_append.
  destruct (h !! lower name);
    (destruct (decide (k = lower name)) as [->|Hne];
     [intros _; apply lower_idempotent
     |rewrite lookup_insert_ne by congruence; apply Hh]).
Qed.

Lemma Headers_new_pairs_lowercase entries :
  lowercase_names (Headers_new (Some (InitPairs entries))).
Proof.
  unfold Headers_new.
  assert (H : forall l h, lowercase_names h ->
              lowercase_names
                (foldl (fun h kv => Headers_append (fst kv) (snd kv) h) h l)).
  { induction l as [|kv l IH]; intros h Hh; [exact Hh|].
    cbn. apply IH. by apply Headers_append_lowercase. }
  apply H. intros k [x Hx]. by rewrite lookup_empty in Hx.
Qed.

Lemma Headers_set_all_union (h headers : Headers) :
  lowercase_names h -> Headers_set_all h headers = h ∪ headers.
Proof.
  unfold Headers_set_all.
  apply (map_fold_weak_ind
           (fun r (m : Headers) => lowercase_names m -> r = m ∪ headers)).
  - intros _. by rewrite (left_id_L ∅ (∪)).
  - intros k x m r Hk IH Hlow.
    unfold Headers_set. rewrite (Hlow k).
    + rewrite IH; [by rewrite insert_union_l|].
      intros name Hname. apply Hlow.
      destruct (decide (name = k)) as [->|Hne].
      * rewrite Hk in Hname. by destruct Hname.
      * by rewrite lookup_insert_ne.
    + rewrite lookup_insert_eq. eauto.
Qed.

Lemma mergeOptions_rest (baseOptions options : JsObject) key :
  key <> "headers" ->
  mergeOptions baseOptions options !! key =
  match options !! key with
  | Some v => Some v
  | None => baseOptions !! key
  end.
Proof.
  intros Hkey. unfold mergeOptions.
  rewrite lookup_insert_ne by congruence.
  rewrite lookup_union, !lookup_delete_ne by congruence.
  destruct (options !! key), (baseOptions !! key); reflexivity.
Qed.

(** X19.  For every key but "headers", the merged options hold the value
    of the request options when they have the key -- even with the value
    undefined, which then hides the client's default -- and the value of
    the client's base options otherwise. *)
Theorem mergeOptions_lookup (baseOptions options : JsObject) key :
  key <> "headers" ->
  mergeOptions baseOptions options !! key =
    match options !! key with
    | Some v => Some v
    | None => baseOptions !! key
    end /\
  (options !! key = Some OUndefined ->
   mergeOptions baseOptions options !! key = Some OUndefined) /\
  (options !! key = None ->
   mergeOptions baseOptions options !! key = baseOptions !! key).
Proof.
  intros Hkey. rewrite (mergeOptions_rest _ _ _ Hkey).
  split; [reflexivity|]. split; intros ->; reflexivity.
Qed.

(** X20.  The merged options always carry a Headers object: the headers
    of the request options laid over those of the base options, name by
    name and without regard to case -- a name of the request replaces the
    base value, every other base name is kept. *)
Theorem mergeOptions_headers (baseOptions options : JsObject) :
  match headers_init (options !! "headers") with
  | Some (InitHeaders h) => lowercase_names h
  | _ => True
  end ->
  let base := Headers_new (headers_init (baseOptions !! "headers")) in
  let own := Headers_new (headers_init (options !! "headers")) in
  mergeOptions baseOptions options !! "headers" =
    Some (OHeaders (InitHeaders (own ∪ base))) /\
  forall name,
    (own ∪ base) !! lower name =
    match own !! lower name with
    | Some v => Some v
    | None => base !! lower name
    end.
Proof.
  intros Hlow base own. subst base own. split.
  - unfold mergeOptions. rewrite lookup_insert_eq. do 3 f_equal.
    destruct (headers_init (options !! "headers")) as [[entries|h]|].
    + apply Headers_set_all_union, Headers_new_pairs_lowercase.
    + by apply Headers_set_all_union.
    + cbn. by rewrite (left_id_L ∅ (∪)).
  - intros name. rewrite lookup_union.
    destruct (_ !! lower name), (_ !! lower name); reflexivity.
Qed.

(** X21.  When neither the configuration nor the request options carry a
    url, schema or method key (their types exclude them), the argument
    that get, post, put, patch and delete hand to the executor has the
    resolved URL, the given schema and the method of the call, and the
    merged headers. *)
Theorem method_request_options config method target schema (options : JsObject) :
  config !! "url" = None -> options !! "url" = None ->
  config !! "schema" = None -> options !! "schema" = None ->
  config !! "method" = None -> options !! "method" = None ->
  exists o,
    options_of (method_request config method target schema options) = Some o /\
    opt_url o = UrlString (resolveUrl (config_baseURL config) target) /\
    opt_schema o = schema /\
    opt_method o = Some method /\
    Some (OHeaders (InitHeaders (opt_headers o))) =
      mergeOptions (delete "baseURL" config) options !! "headers".
Proof.
  intros Hcu Hou Hcs Hos Hcm Hom.
  assert (Hk : forall key, key <> "headers" -> key <> "baseURL" ->
                 config !! key = None -> options !! key = None ->
                 forall m : JsObject,
                   (mergeOptions (delete "baseURL" config) options ∪ m) !! key = m !! key).
  { intros key H1 H2 Hc Ho m. apply lookup_union_r.
    rewrite mergeOptions_rest by exact H1.
    rewrite Ho, lookup_delete_ne by congruence. exact Hc. }
  unfold options_of, method_request.
  rewrite (Hk "url"), (Hk "schema"), (Hk "method") by (assumption || discriminate).
  rewrite lookup_insert_eq, lookup_insert_ne, lookup_insert_eq by discriminate.
  rewrite !lookup_insert_ne, lookup_insert_eq by discriminate.
  cbn [url_input].
  eexists. split; [reflexivity|]. cbn [opt_url opt_schema opt_method opt_headers].
  do 3 (split; [reflexivity|]).
  assert (Hh : exists h, mergeOptions (delete "baseURL" config) options !! "headers"
                         = Some (OHeaders (InitHeaders h))).
  { unfold mergeOptions. rewrite lookup_insert_eq. eauto. }
  destruct Hh as [h Hh].
  rewrite (lookup_union_l' (mergeOptions (delete "baseURL" config) options))
    by (rewrite Hh; eauto).
  rewrite Hh. reflexivity.
Qed.

(** X22.  The [fetch] method of a client never applies the base URL:
    the merged options, spread last, carry the request's own url and
    replace the resolved one, so the executor is given the target exactly
    as the caller wrote it. *)
Theorem fetch_request_ignores_baseURL config (options : JsObject) target :
  url_input (options !! "url") = Some target ->
  exists o,
    fetch_request config options = Some o /\
    o !! "url" = options !! "url" /\
    forall opts, options_of o = Some opts -> opt_url opts = target.
Proof.
  intros Hurl. unfold fetch_request. rewrite Hurl.
  eexists. split; [reflexivity|].
  assert (Hlook : (mergeOptions (delete "baseURL" config) options ∪
                   <["url" := OString (resolveUrl (config_baseURL config) target)]> options)
                  !! "url" = options !! "url").
  { destruct (options !! "url") as [v|] eqn:Hv; [|discriminate Hurl].
    apply lookup_union_Some_l.
    rewrite mergeOptions_rest by discriminate. by rewrite Hv. }
  split; [exact Hlook|].
  intros opts. unfold options_of. rewrite Hlook, Hurl.
  destruct (_ !! "schema") as [[]|]; try discriminate.
  by intros [= <-].
Qed.

(** * Operation names of the generator *)

Lemma sanitize_chars s c :
  In c (list_ascii_of_string (sanitize s)) -> is_alnum c = true \/ c = underscore.
Proof.
  induction s as [|x s IH]; [intros []|].
  cbn. intros [<-|Hin]; [|by apply IH].
  destruct (is_alnum x) eqn:Hx; [by left|by right].
Qed.

Lemma sanitize_alnum s : all_alnum s = true -> sanitize s = s.
Proof.
  unfold all_alnum, sanitize. induction s as [|x s IH]; [reflexivity|].
  cbn. intros H. apply andb_true_iff in H as [Hx Hs].
  rewrite Hx. f_equal. exact (IH Hs).
Qed.

(** X23.  The name under which an operation is generated consists of
    ASCII letters, digits and underscores only; it has one character per
    character of the id it is made from; and a declared, non-empty id that
    is already made of letters and digits is used unchanged. *)
Theorem safeOperationId_chars declared method route :
  (forall c, In c (list_ascii_of_string (safeOperationId declared method route)) ->
             is_alnum c = true \/ c = underscore) /\
  (forall id, declared = Some id -> id <> "" ->
              String.length (safeOperationId declared method route) = String.length id /\
              (all_alnum id = true -> safeOperationId declared method route = id)).
Proof.
  split.
  - intros c. apply sanitize_chars.
  - intros id -> Hne. unfold safeOperationId.
    apply String.eqb_neq in Hne. rewrite Hne.
    split; [|apply sanitize_alnum].
    clear Hne. unfold sanitize.
    induction id as [|x id IH]; [reflexivity|]. cbn. f_equal. exact IH.
Qed.

(** * Further concrete runs *)

Lemma first_answer_accepted_witness :
  let options := Demo.with_signal SignalAborted Demo.users_example in
  let world := Demo.always (Responds (Demo.respond 200 (Demo.count_text 1))) in
  outcome (zFetch options world) = Returned (JObj [("count", JNum 1)]) /\
  schedule (trace (zFetch options world)) = [Call] /\
  validations (trace (zFetch options world)) = [JObj [("count", JNum 1)]].
Proof.
  exact (first_answer_accepted
           (Demo.with_signal SignalAborted Demo.users_example)
           (Demo.always (Responds (Demo.respond 200 (Demo.count_text 1))))
           (Samples.parsed "https://api.example.com/users/1")
           (Demo.respond 200 (Demo.count_text 1))
           (JObj [("count", JNum 1)]) (JObj [("count", JNum 1)])
           eq_refl eq_refl eq_refl eq_refl eq_refl).
Defined.


Lemma server_errors_exhaust_witness :
  let cfg := {| attempts := 2; delay := Some 100; backoff := None |} in
  let run := zFetch (Demo.error500_example cfg) Demo.always500 in
  outcome run =
    Raised (TZod (http_error "https://api.example.com/error/500"
                    (Demo.respond 500 ""))) /\
  length (fetches (trace run)) = 3%nat.
Proof.
  apply (server_errors_exhaust
           (Demo.error500_example {| attempts := 2; delay := Some 100; backoff := None |})
           Demo.always500 (Samples.parsed "https://api.example.com/error/500")
           (Demo.respond 500 "") eq_refl).
  - cbn; lia.
  - intros k _. split; [reflexivity|]. eexists. split; [reflexivity|]. cbn; lia.
  - reflexivity.
Defined.

Lemma timeouts_exhaust_witness :
  let run := zFetch Samples.timeout_options (Demo.always NoAnswer) in
  outcome run =
    Raised (TZod (timeout_error "https://api.example.com/timeout")) /\
  length (fetches (trace run)) = 1%nat /\
  timers (trace run) = [500].
Proof.
  apply (timeouts_exhaust Samples.timeout_options (Demo.always NoAnswer)
           (Samples.parsed "https://api.example.com/timeout") eq_refl).
  - cbn; lia.
  - intros k _. split; reflexivity.
Defined.

Lemma declared_json_unparsable_witness :
  let options := Demo.with_retry (RetryNumber 3) Demo.users_example in
  let world := Demo.always (Responds (Demo.respond 200 "oops")) in
  let run := zFetch options world in
  exists z,
    outcome run = Raised (TZod z) /\
    cause z = network /\
    data z = Some (DataThrown (RawError false "SyntaxError"
                                 "Unexpected token in JSON: oops")) /\
    schedule (trace run) = [Call] /\
    validations (trace run) = [].
Proof.
  destruct (declared_json_unparsable
              (Demo.with_retry (RetryNumber 3) Demo.users_example)
              (Demo.always (Responds (Demo.respond 200 "oops")))
              (Samples.parsed "https://api.example.com/users/1")
              (Demo.respond 200 "oops") "application/json" "oops"
              eq_refl eq_refl eq_refl eq_refl eq_refl eq_refl eq_refl eq_refl)
    as (z & Ho & Hc & Hd & _ & _ & Hs & Hv).
  exists z. split; [exact Ho|]. split; [exact Hc|]. split; [exact Hd|].
  split; [exact Hs|exact Hv].
Defined.

Lemma attempt_loop_error_kinds_witness :
  let cfg := {| attempts := 1; delay := Some 100; backoff := None |} in
  let u := "https://api.example.com/error/500" in
  let r := attempt_loop (Demo.error500_example cfg) u ∅ None cfg Demo.always500 2 0 in
  exists z, outcome r = Raised (TZod z) /\ url z = Some u /\ status z = Some 500.
Proof.
  assert (Ho : outcome (attempt_loop
                          (Demo.error500_example
                             {| attempts := 1; delay := Some 100; backoff := None |})
                          "https://api.example.com/error/500" ∅ None
                          {| attempts := 1; delay := Some 100; backoff := None |}
                          Demo.always500 2 0) =
               Raised (TZod (http_error "https://api.example.com/error/500"
                               (Demo.respond 500 ""))))
    by reflexivity.
  destruct (attempt_loop_error_kinds _ _ _ _ _ _ _ _ _ Ho) as (z & Hz & Hu & _).
  exists z. injection Hz as <-. split; [exact Ho|]. split; [exact Hu|reflexivity].
Defined.

(** Exponential backoff against a server that always answers 500: the
    second wait is twice the first. *)
Lemma zFetch_schedule_witness :
  let cfg := {| attempts := 2; delay := Some 100; backoff := Some exponential |} in
  let run := zFetch (Demo.error500_example cfg) Demo.always500 in
  schedule (trace run) = [Call; Sleep 100; Call; Sleep 200; Call] /\
  waits (trace run) = [100; 200].
Proof.
  destruct (zFetch_schedule
              (Demo.error500_example
                 {| attempts := 2; delay := Some 100; backoff := Some exponential |})
              Demo.always500 (Samples.parsed "https://api.example.com/error/500")
              eq_refl) as (n & _ & Hs & Hl & Hw).
  assert (Hlen : length (fetches (trace (zFetch
                   (Demo.error500_example
                      {| attempts := 2; delay := Some 100;
                         backoff := Some exponential |})
                   Demo.always500))) = 3%nat) by reflexivity.
  rewrite Hlen in Hl. injection Hl as <-.
  split; [exact Hs|exact Hw].
Defined.

Lemma zFetch_requests_witness :
  let req := {| req_url := "https://api.example.com/posts?page=2&q=zod&all=true";
                req_method := Some "POST";
                req_headers := <["content-type" := "application/json"]>
                                 {["x-api-key" := "secret"]};
                req_body := Some (BodyString
                                   (Demo.stringify (JObj [("title", JStr "Hello")])));
                req_signal := SigController |} in
  fetches (trace (zFetch Samples.search_example Demo.always500)) = [req; req] /\
  req_headers req !! "content-type" = Some "application/json" /\
  req_headers req !! "x-api-key" = Some "secret" /\
  forall req', In req' (fetches (trace (zFetch Samples.search_example Demo.always500))) ->
               req' = req.
Proof.
  set (req := {| req_url := "https://api.example.com/posts?page=2&q=zod&all=true";
                 req_method := Some "POST";
                 req_headers := <["content-type" := "application/json"]>
                                  {["x-api-key" := "secret"]};
                 req_body := Some (BodyString
                                    (Demo.stringify (JObj [("title", JStr "Hello")])));
                 req_signal := SigController |}).
  assert (Hf : fetches (trace (zFetch Samples.search_example Demo.always500))
               = [req; req]) by reflexivity.
  assert (Hin : In req (fetches (trace (zFetch Samples.search_example Demo.always500))))
    by (rewrite Hf; left; reflexivity).
  destruct (zFetch_requests Samples.search_example Demo.always500
              (Samples.parsed "https://api.example.com/posts") req eq_refl Hin)
    as (_ & _ & _ & Hobj & _ & Hsame).
  destruct (Hobj (JObj [("title", JStr "Hello")]) eq_refl) as (_ & Hct & Hother).
  split; [exact Hf|]. split; [exact Hct|].
  split; [exact (Hother "x-api-key" ltac:(discriminate))|exact Hsame].
Defined.

Lemma zFetch_request_url_witness :
  let run := zFetch Samples.search_example Demo.always500 in
  length (fetches (trace run)) = 2%nat /\
  List.Forall
    (fun req => req_url req = "https://api.example.com/posts?page=2&q=zod&all=true")
    (fetches (trace run)).
Proof.
  split; [reflexivity|].
  apply List.Forall_forall. intros req Hin.
  exact (proj1 (zFetch_request_url Samples.search_example Demo.always500
                  (Samples.parsed "https://api.example.com/posts") req
                  eq_refl eq_refl Hin)).
Defined.

Lemma zFetch_abort_in_flight_witness :
  let options :=
    Demo.with_retry (RetryNumber 3) (Demo.with_signal SignalLive Demo.users_example) in
  let run := zFetch options Samples.aborting in
  outcome run = Raised (TZod (abort_error "https://api.example.com/users/1")) /\
  schedule (trace run) = [Call] /\
  validations (trace run) = [].
Proof.
  exact (zFetch_abort_in_flight
           (Demo.with_retry (RetryNumber 3)
              (Demo.with_signal SignalLive Demo.users_example))
           Samples.aborting (Samples.parsed "https://api.example.com/users/1")
           eq_refl eq_refl eq_refl).
Defined.

Lemma zFetch_single_call_without_budget_witness :
  let run := zFetch (Demo.get "https://api.example.com/error/500" Demo.any_schema)
               Demo.always500 in
  schedule (trace run) = [Call] /\ waits (trace run) = [].
Proof.
  apply (zFetch_single_call_without_budget
           (Demo.get "https://api.example.com/error/500" Demo.any_schema)
           Demo.always500 (Samples.parsed "https://api.example.com/error/500") eq_refl).
  cbn; lia.
Defined.

Lemma executor_validates_success_only_witness :
  let world := Demo.always (Responds (Demo.respond 200 (Demo.count_text 1))) in
  In (JObj [("count", JNum 1)])
     (validations (trace (zFetch Demo.users_example world))) /\
  exists k r, w_settle (world k) = Responds r /\ 200 <= r_status r <= 299 /\
              outcome (parse_body r) = Returned (JObj [("count", JNum 1)]).
Proof.
  assert (Hin : In (JObj [("count", JNum 1)])
                  (validations (trace (zFetch Demo.users_example
                     (Demo.always (Responds (Demo.respond 200 (Demo.count_text 1))))))))
    by (left; reflexivity).
  split; [exact Hin|].
  exact (executor_validates_success_only Demo.users_example _ _ Hin).
Defined.

Lemma upload_error_kinds_witness :
  exists z,
    outcome (zFetch_upload Samples.upload_example XhrErrors) = Raised (TZod z) /\
    url z = Some "https://api.example.com/upload" /\
    cause z = network /\ status z = None.
Proof.
  destruct (upload_error_kinds Samples.upload_example XhrErrors _ eq_refl)
    as (z & Hz & Hu & Hc & Hs).
  exists z. rewrite <- Hz. split; [reflexivity|].
  split; [exact Hu|]. split; [exact Hc|exact Hs].
Defined.


(** A relative path that happens to start with "http" is not joined to
    the base URL. *)
Lemma resolveUrl_unchanged_witness :
  resolveUrl (Some "https://api.example.com") (UrlString "httpbin/get") = "httpbin/get".
Proof.
  exact (proj1 (resolveUrl_unchanged (Some "https://api.example.com") "httpbin/get"
                  (or_intror (or_intror eq_refl)))).
Defined.

Lemma resolveUrl_join_witness :
  resolveUrl (Some "https://api.example.com") (UrlString "/posts")
  = "https://api.example.com/posts" /\
  resolveUrl (Some "https://api.example.com/") (UrlString "posts")
  = "https://api.example.com/posts" /\
  resolveUrl (Some "https://api.example.com") (UrlString "//posts")
  = "https://api.example.com//posts".
Proof.
  destruct (resolveUrl_join "https://api.example.com" "posts"
              ltac:(discriminate) eq_refl eq_refl eq_refl) as (_ & H2 & H3 & _ & H5).
  split; [exact H3|]. split; [exact H2|exact H5].
Defined.

(** A request that passes [timeout: undefined] loses the client's default
    timeout. *)
Lemma mergeOptions_lookup_witness :
  Samples.base_options !! "timeout" = Some (ONumber 5000) /\
  mergeOptions Samples.base_options Samples.request_options !! "timeout"
  = Some OUndefined.
Proof.
  split; [reflexivity|].
  destruct (mergeOptions_lookup Samples.base_options Samples.request_options
              "timeout" ltac:(discriminate)) as (_ & Hundef & _).
  apply Hundef. reflexivity.
Defined.

Lemma mergeOptions_headers_witness :
  mergeOptions Samples.base_options Samples.post_options !! "headers" =
  Some (OHeaders (InitHeaders
          (<["accept" := "application/json"]> {["x-api-key" := "other"]}))).
Proof.
  destruct (mergeOptions_headers Samples.base_options Samples.post_options I)
    as [H _].
  rewrite H. vm_compute. reflexivity.
Defined.

(** The call of the client test: [client.post("/posts", schema, options)]. *)
Lemma method_request_options_witness :
  exists o,
    options_of (method_request Samples.config "POST" (UrlString "/posts")
                  Demo.any_schema Samples.post_options) = Some o /\
    opt_url o = UrlString "https://api.example.com/posts" /\
    opt_method o = Some "POST" /\
    opt_headers o !! "x-api-key" = Some "other".
Proof.
  destruct (method_request_options Samples.config "POST" (UrlString "/posts")
              Demo.any_schema Samples.post_options
              eq_refl eq_refl eq_refl eq_refl eq_refl eq_refl)
    as (o & Ho & Hurl & _ & Hmethod & Hheaders).
  exists o. split; [exact Ho|]. split; [exact Hurl|]. split; [exact Hmethod|].
  assert (Hm : mergeOptions (delete "baseURL" Samples.config) Samples.post_options
               !! "headers" =
               Some (OHeaders (InitHeaders
                       (<["accept" := "application/json"]> {["x-api-key" := "other"]}))))
    by (vm_compute; reflexivity).
  rewrite Hm in Hheaders. injection Hheaders as ->. reflexivity.
Defined.

(** [client.fetch] with a relative target: the base URL is not applied. *)
Lemma fetch_request_ignores_baseURL_witness :
  config_baseURL Samples.config = Some "https://api.example.com" /\
  exists o,
    fetch_request Samples.config Samples.fetch_options = Some o /\
    o !! "url" = Some (OString "/users/1").
Proof.
  split; [reflexivity|].
  destruct (fetch_request_ignores_baseURL Samples.config Samples.fetch_options
              (UrlString "/users/1") eq_refl) as (o & Ho & Hurl & _).
  exists o. split; [exact Ho|]. rewrite Hurl. reflexivity.
Defined.
